(** * Traffic_light_NRV: the polling loop of [IO_loop.py]

    A shallow embedding of [src/IO_loop.py] and the properties of its
    reconciliation loop.  Python values that reach the program from the
    network are JSON values; exceptions are results in a sum type; the
    local variables of [main], the network, the clock and the calls made to
    the hardware stubs are threaded through a state-and-exception monad. *)

From Stdlib Require Import ZArith List String Ascii Bool Lia Arith.
Import ListNotations.

Open Scope string_scope.
Open Scope list_scope.
Open Scope Z_scope.

#[local] Set Warnings "-register-all".

(** ** Python values and exceptions *)

(** What [r.json()] can return.  A dictionary is the association list of its
    items (first match wins on lookup).  Only the zero-ness of a number is
    ever observed by the program. *)
Inductive json : Type :=
| JNull
| JBool (b : bool)
| JNum (z : Z)
| JStr (s : string)
| JList (l : list json)
| JDict (d : list (string * json)).

(** The exception classes the program can meet; all derive from [Exception].
    [HTTPError] carries the status of its response ([None] when the
    exception has no response attached); [RequestException] stands for the
    other failures of the [requests] library (connection errors, timeouts). *)
Inductive exn : Type :=
| KeyError (key : json)
| IndexError
| TypeError
| AttributeError
| ValueError
| OverflowError
| JSONDecodeError
| HTTPError (status : option Z)
| RequestException.

(** Pure Python expressions either raise or return. *)
Definition res (A : Type) : Type := (exn + A)%type.

Definition rbind {A B} (r : res A) (k : A -> res B) : res B :=
  match r with
  | inl e => inl e
  | inr a => k a
  end.

Declare Scope res_scope.
Delimit Scope res_scope with res.
Notation "x <-? r ; k" := (rbind r (fun x => k))
  (at level 61, r at next level, right associativity) : res_scope.

(** [bool(v)] *)
Definition truthy (v : json) : bool :=
  match v with
  | JNull => false
  | JBool b => b
  | JNum z => negb (z =? 0)
  | JStr s => negb (String.eqb s EmptyString)
  | JList l => match l with [] => false | _ => true end
  | JDict d => match d with [] => false | _ => true end
  end.

Fixpoint dict_lookup {A} (k : string) (d : list (string * A)) : option A :=
  match d with
  | [] => None
  | (k', v) :: d' => if String.eqb k k' then Some v else dict_lookup k d'
  end.

Fixpoint last_char (s : string) : string :=
  match s with
  | EmptyString => EmptyString
  | String c EmptyString => String c EmptyString
  | String _ r => last_char r
  end.

(** [v[-1]] *)
Definition subscript_last (v : json) : res json :=
  match v with
  | JList l => match rev l with
               | [] => inl IndexError
               | x :: _ => inr x
               end
  | JStr s => inr (JStr (last_char s))
  | JDict _ => inl (KeyError (JNum (-1)))
  | _ => inl TypeError
  end.

(** [v[key]] for a string key *)
Definition subscript (v : json) (key : string) : res json :=
  match v with
  | JDict d => match dict_lookup key d with
               | Some x => inr x
               | None => inl (KeyError (JStr key))
               end
  | _ => inl TypeError
  end.

(** [v.get(key)] *)
Definition dict_get (v : json) (key : string) : res json :=
  match v with
  | JDict d => match dict_lookup key d with
               | Some x => inr x
               | None => inr JNull
               end
  | _ => inl AttributeError
  end.

(** ** Dates and times *)

(** A [datetime]: its wall-clock reading in microseconds since
    1970-01-01T00:00:00 of its own calendar, and the UTC offset of its
    [tzinfo] in microseconds ([None] for a naive value). *)
Record datetime : Type := mkDatetime {
  wall_us : Z;
  tzinfo : option Z
}.

(** A [timedelta] is a number of microseconds. *)
Definition timedelta := Z.

Definition seconds (n : Z) : timedelta := n * 1000000.
Definition minutes (n : Z) : timedelta := seconds (n * 60).
Definition hours (n : Z) : timedelta := minutes (n * 60).

Definition timezone_utc : option Z := Some 0.

(** Days from 1970-01-01 to the civil date [y-m-d] (proleptic Gregorian). *)
Definition days_from_civil (y m d : Z) : Z :=
  let y' := if m <=? 2 then y - 1 else y in
  let era := y' / 400 in
  let yoe := y' - era * 400 in
  let mp := if m >? 2 then m - 3 else m + 9 in
  let doy := (153 * mp + 2) / 5 + d - 1 in
  let doe := yoe * 365 + yoe / 4 - yoe / 100 + doy in
  era * 146097 + doe - 719468.

Definition is_leap (y : Z) : bool :=
  ((y mod 4 =? 0) && negb (y mod 100 =? 0)) || (y mod 400 =? 0).

Definition days_in_month (y m : Z) : Z :=
  if m =? 2 then (if is_leap y then 29 else 28)
  else if (m =? 4) || (m =? 6) || (m =? 9) || (m =? 11) then 30
  else 31.

Definition civil_us (y m d hh mi ss us : Z) : Z :=
  seconds (days_from_civil y m d * 86400 + hh * 3600 + mi * 60 + ss) + us.

(** [datetime.min] and [datetime.max] *)
Definition datetime_min_us : Z := civil_us 1 1 1 0 0 0 0.
Definition datetime_max_us : Z := civil_us 9999 12 31 23 59 59 999999.

(** The constructor [datetime(y, m, d, hh, mi, ss, us, tzinfo)] with its
    range checks. *)
Definition make_datetime (y m d hh mi ss us : Z) (tz : option Z) : res datetime :=
  if (1 <=? y) && (y <=? 9999) && (1 <=? m) && (m <=? 12)
     && (1 <=? d) && (d <=? days_in_month y m)
     && (0 <=? hh) && (hh <=? 23) && (0 <=? mi) && (mi <=? 59)
     && (0 <=? ss) && (ss <=? 59) && (0 <=? us) && (us <=? 999999)
  then inr (mkDatetime (civil_us y m d hh mi ss us) tz)
  else inl ValueError.

(** *** [datetime.fromisoformat]

    The library function as Python 3.7 to 3.10 have it, for the grammar
    they document:
    [YYYY-MM-DD[*HH[:MM[:SS[.fff[fff]]]][+HH:MM[:SS[.ffffff]]]]], where [*]
    is any single character.  Anything else is a [ValueError] here.  Later
    versions read more spellings (the basic format, offsets without colon,
    fractions of any length, week dates); on those this model and a later
    library differ, and nothing below is stated about them. *)

Definition digit (c : ascii) : option Z :=
  let n := nat_of_ascii c in
  if ((48 <=? n) && (n <=? 57))%nat then Some (Z.of_nat (n - 48)) else None.

(** Exactly [k] decimal digits at the head of [l]. *)
Fixpoint digits (k : nat) (acc : Z) (l : list ascii) : option (Z * list ascii) :=
  match k with
  | O => Some (acc, l)
  | S k' => match l with
            | [] => None
            | c :: l' => match digit c with
                         | Some v => digits k' (acc * 10 + v) l'
                         | None => None
                         end
            end
  end.

Definition expect (c : ascii) (l : list ascii) : option (list ascii) :=
  match l with
  | c' :: l' => if Ascii.eqb c c' then Some l' else None
  | [] => None
  end.

(** [.fff] or [.ffffff] up to the end of the text. *)
Definition parse_fraction (l : list ascii) : option Z :=
  match expect "." l with
  | None => None
  | Some l1 =>
      if (List.length l1 =? 3)%nat then
        match digits 3 0 l1 with Some (v, _) => Some (v * 1000) | None => None end
      else if (List.length l1 =? 6)%nat then
        match digits 6 0 l1 with Some (v, _) => Some v | None => None end
      else None
  end.

(** [HH[:MM[:SS[.fff[fff]]]]] up to the end of the text. *)
Definition parse_hh_mm_ss_ff (l : list ascii) : option (Z * Z * Z * Z) :=
  match digits 2 0 l with
  | None => None
  | Some (hh, []) => Some (hh, 0, 0, 0)
  | Some (hh, l1) =>
      match expect ":" l1 with
      | None => None
      | Some l2 =>
          match digits 2 0 l2 with
          | None => None
          | Some (mi, []) => Some (hh, mi, 0, 0)
          | Some (mi, l3) =>
              match expect ":" l3 with
              | None => None
              | Some l4 =>
                  match digits 2 0 l4 with
                  | None => None
                  | Some (ss, []) => Some (hh, mi, ss, 0)
                  | Some (ss, l5) =>
                      match parse_fraction l5 with
                      | Some us => Some (hh, mi, ss, us)
                      | None => None
                      end
                  end
              end
          end
      end
  end.

Definition is_sign (c : ascii) : bool := Ascii.eqb c "+" || Ascii.eqb c "-".

(** Split at the first sign character: the text before it, and the sign
    with the text after it. *)
Fixpoint split_offset (l : list ascii) : list ascii * option (ascii * list ascii) :=
  match l with
  | [] => ([], None)
  | c :: l' =>
      if is_sign c then ([], Some (c, l'))
      else let (t, o) := split_offset l' in (c :: t, o)
  end.

(** The offset text after the sign: [HH:MM], [HH:MM:SS] or
    [HH:MM:SS.ffffff].  An offset of zero whole seconds is [timezone.utc],
    whatever its microseconds; any other one goes through [timezone(td)],
    which wants it strictly within a day. *)
Definition parse_offset (sign : ascii) (l : list ascii) : option Z :=
  let n := List.length l in
  if ((n =? 5) || (n =? 8) || (n =? 15))%nat then
    match parse_hh_mm_ss_ff l with
    | Some (hh, mi, ss, us) =>
        let whole := hh * 3600 + mi * 60 + ss in
        let td := seconds whole + us in
        if whole =? 0 then Some 0
        else if td <? hours 24
        then Some (if Ascii.eqb sign "-" then - td else td)
        else None
    | None => None
    end
  else None.

Definition parse_isoformat_time (l : list ascii) : option (Z * Z * Z * Z * option Z) :=
  let (t, o) := split_offset l in
  match parse_hh_mm_ss_ff t with
  | None => None
  | Some (hh, mi, ss, us) =>
      match o with
      | None => Some (hh, mi, ss, us, None)
      | Some (sign, tzs) =>
          match parse_offset sign tzs with
          | Some off => Some (hh, mi, ss, us, Some off)
          | None => None
          end
      end
  end.

Definition parse_isoformat_date (l : list ascii) : option (Z * Z * Z * list ascii) :=
  match digits 4 0 l with
  | None => None
  | Some (y, l1) =>
      match expect "-" l1 with
      | None => None
      | Some l2 =>
          match digits 2 0 l2 with
          | None => None
          | Some (m, l3) =>
              match expect "-" l3 with
              | None => None
              | Some l4 =>
                  match digits 2 0 l4 with
                  | None => None
                  | Some (d, l5) => Some (y, m, d, l5)
                  end
              end
          end
      end
  end.

Definition fromisoformat (ts : string) : res datetime :=
  match parse_isoformat_date (list_ascii_of_string ts) with
  | None => inl ValueError
  | Some (y, m, d, []) => make_datetime y m d 0 0 0 0 None
  | Some (y, m, d, _sep :: tstr) =>
      match parse_isoformat_time tstr with
      | None => inl ValueError
      | Some (hh, mi, ss, us, tz) => make_datetime y m d hh mi ss us tz
      end
  end.

(** [dt.replace(tzinfo=tz)] *)
Definition replace_tzinfo (dt : datetime) (tz : option Z) : datetime :=
  mkDatetime (wall_us dt) tz.

(** [dt.astimezone(timezone.utc)] on an aware value: the same instant read
    on the UTC clock; out of the representable years it overflows.  (On a
    naive value the library would assume the system's local time; the
    program never does that.) *)
Definition astimezone_utc (dt : datetime) : res datetime :=
  match tzinfo dt with
  | None => inl ValueError
  | Some off =>
      let u := wall_us dt - off in
      if (datetime_min_us <=? u) && (u <=? datetime_max_us)
      then inr (mkDatetime u timezone_utc)
      else inl OverflowError
  end.

(** [s.endswith(suffix)] and [s[:-1]] *)
Definition endswith (s suffix : string) : bool :=
  (String.length suffix <=? String.length s)%nat
  && String.eqb (substring (String.length s - String.length suffix) (String.length suffix) s) suffix.

Definition drop_last (s : string) : string :=
  substring 0 (String.length s - 1) s.

(** *** [iso_utc] (lines 17-25) *)
Definition iso_utc (ts : string) : res datetime :=
  let ts := if endswith ts "Z" then (drop_last ts ++ "+00:00")%string else ts in
  (dt <-? fromisoformat ts ;
   let dt := match tzinfo dt with
             | None => replace_tzinfo dt timezone_utc
             | Some _ => dt
             end in
   astimezone_utc dt)%res.

(** A call [iso_utc(v)] on whatever the row holds: only a [str] has
    [endswith]. *)
Definition iso_utc_call (v : json) : res datetime :=
  match v with
  | JStr s => iso_utc s
  | _ => inl AttributeError
  end.

(** [a - b] and [a > b] on datetimes: both naive or both aware, else a
    [TypeError]. *)
Definition dt_sub (a b : datetime) : res timedelta :=
  match tzinfo a, tzinfo b with
  | Some oa, Some ob => inr ((wall_us a - oa) - (wall_us b - ob))
  | None, None => inr (wall_us a - wall_us b)
  | _, _ => inl TypeError
  end.

Definition dt_gt (a b : datetime) : res bool :=
  match tzinfo a, tzinfo b with
  | Some oa, Some ob => inr (wall_us a - oa >? wall_us b - ob)
  | None, None => inr (wall_us a >? wall_us b)
  | _, _ => inl TypeError
  end.

(** The text of an instant on the Europe/Berlin clock, as
    [dt.astimezone(BERLIN).strftime(...)] yields it for the log.  Only the
    instant it renders is kept.  The zone is ahead of UTC at both ends of
    the calendar, so the conversion can only overflow in the last hour of
    the year 9999. *)
Inductive local_text : Type := BerlinText (instant_us : Z).

Definition berlin_strftime (dt : datetime) : res local_text :=
  match tzinfo dt with
  | None => inl ValueError
  | Some off =>
      let u := wall_us dt - off in
      if u + hours 1 <=? datetime_max_us then inr (BerlinText u) else inl OverflowError
  end.

(** ** Configuration (lines 6-9) *)

Definition POLL_INTERVAL_MS : Z := 1100.
Definition STALE_AFTER : timedelta := minutes 2.

(** ** The world around the program *)

(** The data request: the two instants formatted into the path. *)
Record api_url : Type := mkUrl { from_utc : Z; to_utc : Z }.

(** The reason handed to [failure_mode]: which message template, and the
    values formatted into it. *)
Inductive reason : Type :=
| StartupEmpty                 (* "startup: empty response" *)
| StartupStale (age : timedelta) (* "startup: stale data (age)" *)
| StartupError (e : exn)       (* "startup error: e" *)
| EmptyResponse                (* "empty response" *)
| UnknownValue (val : json)    (* "unknown value: val" *)
| StaleData (age : timedelta)  (* "stale data (age)" *)
| LoopError (e : exn).         (* str(e) *)

(** What the program does to the outside, in order. *)
Inductive event : Type :=
| EvSelfTestStart
| EvSelfTestSuccess
| EvSelfTestFail
| EvLedOk (color : string)
| EvLedErrorBlink
| EvBuzzerError
| EvLogError (r : reason)
| EvLogInfo (initial : bool) (f_loc t_loc : local_text) (magnitude : Z)
| EvCountdown (sec : Z)
| EvClearLine
| EvSleep (ms : Z)
| EvHttpGet (url : api_url) (bearer : json)
| EvHttpPost (client_id client_secret : option string).

(** What one call of [requests.get] / [requests.post] meets: the call
    itself raises, or a response comes back with a status and a body
    ([None] when the body is not JSON). *)
Inductive net_result : Type :=
| NetRaise (e : exn)
| NetResponse (status : Z) (body : option json).

(** The environment answers the n-th network call and the n-th reading of
    the clock (microseconds since the epoch, UTC). *)
Record Env : Type := mkEnv {
  net : nat -> net_result;
  clock : nat -> Z
}.

(** The local variables of [main] that live across poll cycles, the number
    of network calls and clock readings made so far, and the calls made to
    the outside. *)
Record Machine : Type := mkMachine {
  token : json;
  last_to : option datetime;
  in_failure : bool;
  first_after_start : bool;
  net_calls : nat;
  clock_reads : nat;
  trace : list event
}.

Definition set_token (v : json) (m : Machine) : Machine :=
  mkMachine v (last_to m) (in_failure m) (first_after_start m)
            (net_calls m) (clock_reads m) (trace m).
Definition set_last_to (v : option datetime) (m : Machine) : Machine :=
  mkMachine (token m) v (in_failure m) (first_after_start m)
            (net_calls m) (clock_reads m) (trace m).
Definition set_in_failure (v : bool) (m : Machine) : Machine :=
  mkMachine (token m) (last_to m) v (first_after_start m)
            (net_calls m) (clock_reads m) (trace m).
Definition set_first_after_start (v : bool) (m : Machine) : Machine :=
  mkMachine (token m) (last_to m) (in_failure m) v
            (net_calls m) (clock_reads m) (trace m).
Definition add_event (ev : event) (m : Machine) : Machine :=
  mkMachine (token m) (last_to m) (in_failure m) (first_after_start m)
            (net_calls m) (clock_reads m) (trace m ++ [ev]).
Definition count_net_call (m : Machine) : Machine :=
  mkMachine (token m) (last_to m) (in_failure m) (first_after_start m)
            (S (net_calls m)) (clock_reads m) (trace m).
Definition count_clock_read (m : Machine) : Machine :=
  mkMachine (token m) (last_to m) (in_failure m) (first_after_start m)
            (net_calls m) (S (clock_reads m)) (trace m).
Definition add_events (evs : list event) (m : Machine) : Machine :=
  mkMachine (token m) (last_to m) (in_failure m) (first_after_start m)
            (net_calls m) (clock_reads m) (trace m ++ evs).

(** ** The monad of statements *)

Definition M (A : Type) : Type := Env -> Machine -> res A * Machine.

Definition ret {A} (a : A) : M A := fun _ m => (inr a, m).

Definition bind {A B} (c : M A) (k : A -> M B) : M B :=
  fun env m =>
    match c env m with
    | (inl e, m') => (inl e, m')
    | (inr a, m') => k a env m'
    end.

Definition raise {A} (e : exn) : M A := fun _ m => (inl e, m).

(** [try: body except ... as e: ...]: the handler answers [None] for an
    exception its [except] clause does not name, which then propagates. *)
Definition try_except {A} (body : M A) (handler : exn -> option (M A)) : M A :=
  fun env m =>
    match body env m with
    | (inl e, m') =>
        match handler e with
        | Some h => h env m'
        | None => (inl e, m')
        end
    | (inr a, m') => (inr a, m')
    end.

Definition lift {A} (r : res A) : M A := fun _ m => (r, m).
Definition read {A} (f : Machine -> A) : M A := fun _ m => (inr (f m), m).
Definition update (f : Machine -> Machine) : M unit := fun _ m => (inr tt, f m).
Definition emit (ev : event) : M unit := update (add_event ev).

Declare Scope stmt_scope.
Delimit Scope stmt_scope with stmt.
Notation "x <- c ;; k" := (bind c (fun x => k))
  (at level 61, c at next level, right associativity) : stmt_scope.
Notation "' pat <- c ;; k" := (bind c (fun x => match x with pat => k end))
  (at level 61, pat pattern, c at next level, right associativity) : stmt_scope.
Notation "c ;; k" := (bind c (fun _ => k))
  (at level 61, right associativity) : stmt_scope.

Open Scope stmt_scope.

Fixpoint emit_all (evs : list event) : M unit :=
  match evs with
  | [] => ret tt
  | ev :: evs' => emit ev ;; emit_all evs'
  end.

(** The final machine and the result of running a statement. *)
Definition exec {A} (c : M A) (env : Env) (m : Machine) : Machine := snd (c env m).
Definition result {A} (c : M A) (env : Env) (m : Machine) : res A := fst (c env m).

(** *** Library calls *)

(** [requests.get(url, headers={"Authorization": f"Bearer {token}"}, timeout=5)] *)
Definition requests_get (url : api_url) (bearer : json) : M (Z * option json) :=
  emit (EvHttpGet url bearer) ;;
  n <- read net_calls ;;
  update count_net_call ;;
  fun env => match net env n with
             | NetRaise e => raise e env
             | NetResponse status body => ret (status, body) env
             end.

(** [requests.post(token_url, data=..., headers=..., timeout=5)] *)
Definition requests_post (client_id client_secret : option string) : M (Z * option json) :=
  emit (EvHttpPost client_id client_secret) ;;
  n <- read net_calls ;;
  update count_net_call ;;
  fun env => match net env n with
             | NetRaise e => raise e env
             | NetResponse status body => ret (status, body) env
             end.

(** The statuses [raise_for_status] turns into an [HTTPError]. *)
Definition is_error_status (status : Z) : bool := (400 <=? status) && (status <? 600).

(** [r.raise_for_status()] *)
Definition raise_for_status (r : Z * option json) : M unit :=
  if is_error_status (fst r) then raise (HTTPError (Some (fst r))) else ret tt.

(** [r.json()] *)
Definition response_json (r : Z * option json) : M json :=
  match snd r with
  | Some j => ret j
  | None => raise JSONDecodeError
  end.

(** [datetime.now(timezone.utc)] *)
Definition datetime_now_utc : M datetime :=
  n <- read clock_reads ;;
  update count_clock_read ;;
  fun env => ret (mkDatetime (clock env n) timezone_utc) env.

(** [time.sleep(...)] *)
Definition time_sleep (ms : Z) : M unit := emit (EvSleep ms).

(** *** Hardware stubs (lines 28-47) *)

Definition led_ok (color : string) : M unit := emit (EvLedOk color).
Definition led_error_blink : M unit := emit EvLedErrorBlink.
Definition buzzer_error : M unit := emit EvBuzzerError.
Definition self_test_start : M unit := emit EvSelfTestStart.
Definition self_test_success : M unit := emit EvSelfTestSuccess.
Definition self_test_fail : M unit := emit EvSelfTestFail.

(** *** The value map (lines 50-55) *)

Definition VALUE_MAP : list (string * Z) :=
  [ ("BLUE", 0);
    ("GREEN_POS", 1); ("GREEN_NEG", -1);
    ("YELLOW_POS", 2); ("YELLOW_NEG", -2);
    ("RED_POS", 3); ("RED_NEG", -3) ].

(** [VALUE_MAP[k]]: a list or a dictionary cannot be hashed. *)
Definition value_map_item (k : json) : res Z :=
  match k with
  | JStr s => match dict_lookup s VALUE_MAP with
              | Some v => inr v
              | None => inl (KeyError k)
              end
  | JList _ | JDict _ => inl TypeError
  | _ => inl (KeyError k)
  end.

(** [k in VALUE_MAP] *)
Definition value_map_contains (k : json) : res bool :=
  match k with
  | JStr s => match dict_lookup s VALUE_MAP with
              | Some _ => inr true
              | None => inr false
              end
  | JList _ | JDict _ => inl TypeError
  | _ => inr false
  end.

(** *** [get_token] (lines 57-66) *)
Definition get_token (client_id client_secret : option string) : M json :=
  resp <- requests_post client_id client_secret ;;
  raise_for_status resp ;;
  j <- response_json resp ;;
  lift (subscript j "access_token").

(** *** [apply_state] (lines 69-84) *)
Definition apply_state (api_value : json) : M unit :=
  v <- lift (value_map_item api_value) ;;
  if v =? 0 then led_ok "blue"
  else if v =? 1 then led_ok "green"
  else if v =? -1 then led_ok "green"
  else if v =? 2 then led_ok "yellow"
  else if v =? -2 then led_ok "yellow"
  else if v =? 3 then led_ok "red"
  else if v =? -3 then led_ok "red"
  else ret tt.

(** *** [failure_mode] (lines 86-89) *)
Definition failure_mode (r : reason) : M unit :=
  emit (EvLogError r) ;;
  led_error_blink ;;
  buzzer_error.

(** *** [fetch_latest_rows] (lines 91-112) *)
Definition fetch_latest_rows (tok : json) (client_id client_secret : option string)
  : M (json * json) :=
  now_utc <- datetime_now_utc ;;
  let to_utc := wall_us now_utc - (wall_us now_utc) mod (minutes 1) in
  let from_utc := to_utc - minutes 10 in
  let api_url := mkUrl from_utc to_utc in
  try_except
    (r <- requests_get api_url tok ;;
     raise_for_status r ;;
     j <- response_json r ;;
     ret (j, tok))
    (fun e =>
       match e with
       | HTTPError status =>
           Some (match status with
                 | Some 401 =>
                     (* refresh token once, then retry the same call *)
                     new_token <- get_token client_id client_secret ;;
                     r2 <- requests_get api_url new_token ;;
                     raise_for_status r2 ;;
                     j2 <- response_json r2 ;;
                     ret (j2, new_token)
                 | _ => raise e
                 end)
       | _ => None
       end).

(** *** [main] (lines 115-194) *)

(** [if not in_failure: ...] *)
Definition if_not_in_failure (c : M unit) : M unit :=
  f <- read in_failure ;;
  if negb f then c else ret tt.

(** [range(n, 0, -1)] *)
Fixpoint countdown (n : nat) : list Z :=
  match n with
  | O => []
  | S k => Z.of_nat n :: countdown k
  end.

(** The countdown of lines 176-179: a line and a one-second sleep per
    remaining second, then the line is cleared. *)
Definition hold_events : list event :=
  flat_map (fun sec => [EvCountdown sec; EvSleep 1000]) (countdown 55) ++ [EvClearLine].

Definition settle_hold : M unit := emit_all hold_events.

(** The two texts of the log line (lines 143-144 and 167-168). *)
Definition window_text (latest : json) (latest_to : datetime) : res (local_text * local_text) :=
  (from <-? subscript latest "From" ;
   from_dt <-? iso_utc_call from ;
   f_loc <-? berlin_strftime from_dt ;
   t_loc <-? berlin_strftime latest_to ;
   inr (f_loc, t_loc))%res.

(** The stale check that ends a turn (lines 181-188). *)
Definition stale_check (latest_to : datetime) : M unit :=
  now <- datetime_now_utc ;;
  age <- lift (dt_sub now latest_to) ;;
  if age >? STALE_AFTER then
    if_not_in_failure (failure_mode (StaleData age) ;; update (set_in_failure true))
  else
    (* success path clears failure state *)
    update (set_in_failure false).

(** The startup probe (lines 128-147). *)
Definition startup_probe (client_id client_secret : option string) : M unit :=
  try_except
    (tok <- read token ;;
     '(rows, tok') <- fetch_latest_rows tok client_id client_secret ;;
     update (set_token tok') ;;
     if negb (truthy rows) then
       self_test_fail ;; failure_mode StartupEmpty ;; update (set_in_failure true)
     else
       latest <- lift (subscript_last rows) ;;
       to <- lift (subscript latest "To") ;;
       latest_to <- lift (iso_utc_call to) ;;
       now <- datetime_now_utc ;;
       age <- lift (dt_sub now latest_to) ;;
       if age >? STALE_AFTER then
         self_test_fail ;; failure_mode (StartupStale age) ;; update (set_in_failure true)
       else
         self_test_success ;;
         val <- lift (subscript latest "Value") ;;
         apply_state val ;;
         update (set_last_to (Some latest_to)) ;;
         update (set_in_failure false) ;;
         '(f_loc, t_loc) <- lift (window_text latest latest_to) ;;
         val' <- lift (subscript latest "Value") ;;
         magnitude <- lift (value_map_item val') ;;
         emit (EvLogInfo true f_loc t_loc magnitude))
    (fun e =>
       Some (self_test_fail ;; failure_mode (StartupError e) ;; update (set_in_failure true))).

(** One turn of the [while True] loop (lines 150-194). *)
Definition poll_cycle (client_id client_secret : option string) : M unit :=
  try_except
    (tok <- read token ;;
     '(rows, tok') <- fetch_latest_rows tok client_id client_secret ;;
     update (set_token tok') ;;
     if negb (truthy rows) then
       if_not_in_failure (failure_mode EmptyResponse ;; update (set_in_failure true))
     else
       latest <- lift (subscript_last rows) ;;
       val <- lift (dict_get latest "Value") ;;
       known <- lift (value_map_contains val) ;;
       if negb known then
         if_not_in_failure (failure_mode (UnknownValue val) ;; update (set_in_failure true))
       else
         to <- lift (subscript latest "To") ;;
         latest_to <- lift (iso_utc_call to) ;;
         prev <- read last_to ;;
         newer <- match prev with
                  | None => ret true
                  | Some t => lift (dt_gt latest_to t)
                  end ;;
         (if newer : bool then
            update (set_last_to (Some latest_to)) ;;
            apply_state val ;;
            '(f_loc, t_loc) <- lift (window_text latest latest_to) ;;
            magnitude <- lift (value_map_item val) ;;
            emit (EvLogInfo false f_loc t_loc magnitude) ;;
            first <- read first_after_start ;;
            if first : bool then
              (* skip the very first countdown *)
              update (set_first_after_start false)
            else
              settle_hold
          else ret tt) ;;
         stale_check latest_to)
    (fun e =>
       Some (if_not_in_failure (failure_mode (LoopError e) ;; update (set_in_failure true)))) ;;
  time_sleep POLL_INTERVAL_MS.

(** The first [n] turns of [while True]. *)
Fixpoint loop (client_id client_secret : option string) (n : nat) : M unit :=
  match n with
  | O => ret tt
  | S k => poll_cycle client_id client_secret ;; loop client_id client_secret k
  end.

(** [main] from line 122 on, once [get_token] has returned [tok]: the
    self-test start, the initial values of the locals, the startup probe and
    the first [n] turns of the loop. *)
Definition main_from (tok : json) (client_id client_secret : option string) (n : nat)
  : M unit :=
  update (set_token tok) ;;
  self_test_start ;;
  update (set_last_to None) ;;
  update (set_in_failure false) ;;
  update (set_first_after_start true) ;;
  startup_probe client_id client_secret ;;
  loop client_id client_secret n.

Definition main (client_id client_secret : option string) (n : nat) : M unit :=
  tok <- get_token client_id client_secret ;;
  main_from tok client_id client_secret n.

(** The machine before [main] runs: nothing done yet; the locals are
    assigned before they are read. *)
Definition boot : Machine := mkMachine JNull None false true O O [].

(** ** Observing a run *)

(** The machine after the startup probe, and after [k] further turns. *)
Definition started (tok : json) (client_id client_secret : option string)
           (env : Env) (m0 : Machine) : Machine :=
  exec (main_from tok client_id client_secret 0) env m0.

Fixpoint after_cycles (client_id client_secret : option string) (env : Env)
         (k : nat) (m : Machine) : Machine :=
  match k with
  | O => m
  | S j => exec (poll_cycle client_id client_secret) env
                (after_cycles client_id client_secret env j m)
  end.

(** What was done to the outside between two machines of a run. *)
Definition emitted (m m' : Machine) : list event :=
  skipn (List.length (trace m)) (trace m').

Definition count (p : event -> bool) (evs : list event) : nat :=
  List.length (filter p evs).

(** [apply_state] is the only caller of [led_ok], [failure_mode] the only
    caller of [led_error_blink], and the countdown the only place that
    sleeps for one second. *)
Definition is_render (ev : event) : bool :=
  match ev with EvLedOk _ => true | _ => false end.
Definition is_failure_signal (ev : event) : bool :=
  match ev with EvLedErrorBlink => true | _ => false end.
Definition is_hold_sleep (ev : event) : bool :=
  match ev with EvSleep ms => ms =? 1000 | _ => false end.
Definition is_applied_log (ev : event) : bool :=
  match ev with EvLogInfo false _ _ _ => true | _ => false end.
Definition is_http (ev : event) : bool :=
  match ev with EvHttpGet _ _ | EvHttpPost _ _ => true | _ => false end.

(** The instant a datetime denotes, in microseconds since the epoch. *)
Definition instant (d : datetime) : Z :=
  wall_us d - match tzinfo d with Some off => off | None => 0 end.

(** Statements only ever add to the trace. *)
Definition extends (m m' : Machine) : Prop := exists evs, trace m' = trace m ++ evs.

(** A statement that leaves the locals of [main] alone. *)
Definition same_locals (m m' : Machine) : Prop :=
  token m' = token m /\ last_to m' = last_to m /\
  in_failure m' = in_failure m /\ first_after_start m' = first_after_start m.

(** What [last_to] holds, if anything, is an aware UTC value. *)
Definition last_to_aware (m : Machine) : Prop :=
  forall p, last_to m = Some p -> tzinfo p = timezone_utc.

(** [t] is applied over [prev] (line 164): nothing was applied before, or
    [t > prev] holds. *)
Definition newer_than (prev : option datetime) (t : datetime) : Prop :=
  match prev with
  | None => True
  | Some p => dt_gt t p = inr true
  end.

(** The error one request ends in, if any: the call raises, the status is
    rejected by [raise_for_status], or the body is not JSON. *)
Definition response_error (r : net_result) : option exn :=
  match r with
  | NetRaise e => Some e
  | NetResponse status body =>
      if is_error_status status then Some (HTTPError (Some status))
      else match body with
           | Some _ => None
           | None => Some JSONDecodeError
           end
  end.

(** The data request [fetch_latest_rows] builds when the clock reads [now]. *)
Definition request_url (now : Z) : api_url :=
  mkUrl (now - now mod minutes 1 - minutes 10) (now - now mod minutes 1).

(** The claims of the specification that the code does not bear out, as
    the specification words them. *)

(** Between two consecutive renders there is at most one failure signal. *)
Definition at_most_one_failure_between_renders (tr : list event) : Prop :=
  forall pre c1 mid c2 post,
    tr = pre ++ EvLedOk c1 :: mid ++ EvLedOk c2 :: post ->
    count is_render mid = 0%nat ->
    (count is_failure_signal mid <= 1)%nat.

(** Every observation applied after the first one is followed by the
    settle hold. *)
Definition later_applications_hold (tr : list event) : Prop :=
  forall pre c post,
    tr = pre ++ EvLedOk c :: post ->
    (0 < count is_render pre)%nat ->
    (0 < count is_hold_sleep post)%nat.

(** A turn whose fetch returns rows, with a known label on the latest row
    and an end that the stale check finds fresh, clears [in_failure]. *)
Definition fresh_known_row_clears_failure
           (client_id client_secret : option string) (env : Env) (m : Machine) : Prop :=
  forall rows tok' m1 latest val to t,
    fetch_latest_rows (token m) client_id client_secret env m = (inr (rows, tok'), m1) ->
    truthy rows = true ->
    subscript_last rows = inr latest ->
    dict_get latest "Value" = inr val ->
    value_map_contains val = inr true ->
    subscript latest "To" = inr to ->
    iso_utc_call to = inr t ->
    clock env (clock_reads m1) - instant t <= STALE_AFTER ->
    in_failure (exec (poll_cycle client_id client_secret) env m) = false.

(** ** Scenarios *)

Definition answers {A} (l : list A) (default : A) : nat -> A :=
  fun n => nth n l default.

Definition row (from to value : string) : json :=
  JDict [("From", JStr from); ("To", JStr to); ("Value", JStr value)].

Definition token_response (tok : string) : net_result :=
  NetResponse 200 (Some (JDict [("access_token", JStr tok)])).

Definition rows_response (rows : list json) : net_result :=
  NetResponse 200 (Some (JList rows)).

Definition timed_out : net_result := NetRaise RequestException.

(** A reading of the clock on 2025-09-08. *)
Definition at_time (hh mi ss : Z) : Z := civil_us 2025 9 8 hh mi ss 0.

Definition window_1322 : json := row "2025-09-08T13:22:00Z" "2025-09-08T13:23:00Z" "BLUE".
Definition window_1323 : json := row "2025-09-08T13:23:00Z" "2025-09-08T13:24:00Z" "RED_POS".
Definition window_1324 : json := row "2025-09-08T13:24:00Z" "2025-09-08T13:25:00Z" "GREEN_NEG".

(** The feed flaps: the startup probe applies a window, then the network
    times out, answers with the same window, times out again, and at last
    delivers the next window. *)
Definition env_flapping : Env :=
  mkEnv (answers [ token_response "tok-1"; rows_response [window_1322]; timed_out;
                   rows_response [window_1322]; timed_out;
                   rows_response [window_1322; window_1323] ] timed_out)
        (answers [ at_time 13 23 57; at_time 13 23 57; at_time 13 23 58;
                   at_time 13 23 59; at_time 13 23 59; at_time 13 24 0;
                   at_time 13 24 1; at_time 13 24 1 ] (at_time 13 24 2)).

(** A healthy feed: one window at the startup probe, the next ones later. *)
Definition env_healthy : Env :=
  mkEnv (answers [ token_response "tok-1"; rows_response [window_1322];
                   rows_response [window_1322; window_1323];
                   rows_response [window_1323];
                   rows_response [window_1323; window_1324] ] timed_out)
        (answers [ at_time 13 23 57; at_time 13 23 57; at_time 13 24 1;
                   at_time 13 24 1; at_time 13 24 2; at_time 13 24 2;
                   at_time 13 25 1; at_time 13 25 56 ] (at_time 13 25 58)).

(** The startup probe applies a window; then the network goes down. *)
Definition env_goes_down : Env :=
  mkEnv (answers [ token_response "tok-1"; rows_response [window_1322] ] timed_out)
        (fun _ => at_time 13 23 57).

(** The network is down from the startup probe on. *)
Definition env_down : Env :=
  mkEnv (answers [ token_response "tok-1" ] timed_out) (fun _ => at_time 13 23 57).

(** The startup probe times out; the first poll then delivers a fresh
    window whose [From] is not a timestamp. *)
Definition env_bad_from : Env :=
  mkEnv (answers [ token_response "tok-1"; timed_out;
                   rows_response [row "n/a" "2025-09-08T13:23:00Z" "BLUE"] ] timed_out)
        (fun _ => at_time 13 23 10).

(** The startup probe meets a fresh row with a label outside the table. *)
Definition env_purple : Env :=
  mkEnv (answers [ token_response "tok-1";
                   rows_response [row "2025-09-08T13:22:00Z" "2025-09-08T13:23:00Z" "PURPLE"] ]
                 timed_out)
        (fun _ => at_time 13 23 30).

(** The data request is rejected with 401 once; the new credential works. *)
Definition env_expired : Env :=
  mkEnv (answers [ NetResponse 401 None; token_response "tok-2";
                   rows_response [window_1322] ] timed_out)
        (fun _ => at_time 13 23 30).

(** ** More to observe *)

(** More of what can be counted in a trace. *)
Definition is_self_test_success (ev : event) : bool :=
  match ev with EvSelfTestSuccess => true | _ => false end.
Definition is_self_test_fail (ev : event) : bool :=
  match ev with EvSelfTestFail => true | _ => false end.
Definition is_buzzer_error (ev : event) : bool :=
  match ev with EvBuzzerError => true | _ => false end.
Definition is_log_error (ev : event) : bool :=
  match ev with EvLogError _ => true | _ => false end.
Definition is_poll_sleep (ev : event) : bool :=
  match ev with EvSleep ms => ms =? POLL_INTERVAL_MS | _ => false end.

(** The colour [apply_state] shows for a magnitude: the sign is ignored. *)
Definition bucket (v : Z) : string :=
  if Z.abs v =? 0 then "blue"
  else if Z.abs v =? 1 then "green"
  else if Z.abs v =? 2 then "yellow"
  else "red".

(** What [failure_mode(r)] does to the outside, unless the loop is in
    failure already. *)
Definition failure_entry (already : bool) (r : reason) : list event :=
  if already then [] else [EvLogError r; EvLedErrorBlink; EvBuzzerError].
Definition is_self_test_start (ev : event) : bool :=
  match ev with EvSelfTestStart => true | _ => false end.

(** What the stale check of a turn does to the outside. *)
Definition stale_events (already : bool) (age : timedelta) : list event :=
  if age >? STALE_AFTER then failure_entry already (StaleData age) else [].

(** ** More scenarios *)

(** The machine of a run of [main] on [env] after [k] turns of the loop,
    and the machine a fetch leaves behind. *)
Definition running (env : Env) (k : nat) : Machine :=
  after_cycles None None env k (exec (main None None 0) env boot).

Definition fetched (env : Env) (m : Machine) : Machine :=
  snd (fetch_latest_rows (token m) None None env m).

(** The machine at line 128, before the startup probe. *)
Definition probe_start : Machine :=
  mkMachine (JStr "tok-1") None false true 1 0 [EvHttpPost None None; EvSelfTestStart].

(** After a healthy startup the feed answers with no rows. *)
Definition env_empty : Env :=
  mkEnv (answers [ token_response "tok-1"; rows_response [window_1322];
                   rows_response [] ] timed_out)
        (fun _ => at_time 13 23 30).

(** After a healthy startup the feed answers with an unknown label. *)
Definition env_unknown : Env :=
  mkEnv (answers [ token_response "tok-1"; rows_response [window_1322];
                   rows_response [row "2025-09-08T13:23:00Z" "2025-09-08T13:24:00Z" "PURPLE"] ]
                 timed_out)
        (fun _ => at_time 13 23 30).

(** After a healthy startup the feed answers with a row without [To]. *)
Definition env_missing_to : Env :=
  mkEnv (answers [ token_response "tok-1"; rows_response [window_1322];
                   rows_response [JDict [("From", JStr "2025-09-08T13:23:00Z");
                                         ("Value", JStr "BLUE")]] ]
                 timed_out)
        (fun _ => at_time 13 23 30).

(** The data request is rejected with 401 and the token endpoint is down. *)
Definition env_refresh_fails : Env :=
  mkEnv (answers [ NetResponse 401 None; NetResponse 500 None ] timed_out)
        (fun _ => at_time 13 23 30).

(** The startup probe meets a window that ended seven minutes ago. *)
Definition env_stale_start : Env :=
  mkEnv (answers [ token_response "tok-1"; rows_response [window_1322] ] timed_out)
        (fun _ => at_time 13 30 0).
(** The startup probe meets a fresh window whose [From] is not a timestamp. *)
Definition env_bad_from_start : Env :=
  mkEnv (answers [ token_response "tok-1";
                   rows_response [row "n/a" "2025-09-08T13:23:00Z" "BLUE"] ] timed_out)
        (fun _ => at_time 13 23 10).

(** * Properties *)

(** ** Counting and cutting traces *)

Lemma count_app p (a b : list event) : count p (a ++ b) = (count p a + count p b)%nat.
Proof. unfold count. now rewrite filter_app, length_app. Qed.

Lemma count_cons p ev evs :
  count p (ev :: evs) = ((if p ev then 1 else 0) + count p evs)%nat.
Proof. unfold count. simpl. now destruct (p ev). Qed.

Lemma emitted_app m m' evs : trace m' = trace m ++ evs -> emitted m m' = evs.
Proof.
  intros H. unfold emitted. rewrite H.
  rewrite skipn_app, skipn_all, Nat.sub_diag. reflexivity.
Qed.

Lemma extends_refl m : extends m m.
Proof. exists []. now rewrite app_nil_r. Qed.

Lemma extends_trans a b c : extends a b -> extends b c -> extends a c.
Proof. intros [x Hx] [y Hy]. exists (x ++ y). now rewrite Hy, Hx, app_assoc. Qed.

Lemma emitted_trans a b c :
  extends a b -> extends b c -> emitted a c = emitted a b ++ emitted b c.
Proof.
  intros [x Hx] [y Hy].
  rewrite (emitted_app a b x Hx), (emitted_app b c y Hy).
  apply emitted_app. now rewrite Hy, Hx, app_assoc.
Qed.

Lemma count_http p evs :
  (forall ev, is_http ev = true -> p ev = false) ->
  forallb is_http evs = true -> count p evs = 0%nat.
Proof.
  intros Hp. induction evs as [|ev evs IH]; [reflexivity|].
  cbn [forallb]. intros H. apply andb_prop in H. destruct H as [H1 H2].
  rewrite count_cons, (Hp _ H1), IH by assumption. reflexivity.
Qed.

Lemma http_not_render ev : is_http ev = true -> is_render ev = false.
Proof. now destruct ev. Qed.
Lemma http_not_failure_signal ev : is_http ev = true -> is_failure_signal ev = false.
Proof. now destruct ev. Qed.
Lemma http_not_hold_sleep ev : is_http ev = true -> is_hold_sleep ev = false.
Proof. now destruct ev. Qed.
Lemma http_not_applied_log ev : is_http ev = true -> is_applied_log ev = false.
Proof. now destruct ev. Qed.

Lemma hold_events_render : count is_render hold_events = 0%nat.
Proof. reflexivity. Qed.
Lemma hold_events_failure_signal : count is_failure_signal hold_events = 0%nat.
Proof. reflexivity. Qed.
Lemma hold_events_hold_sleep : count is_hold_sleep hold_events = 55%nat.
Proof. reflexivity. Qed.
Lemma hold_events_applied_log : count is_applied_log hold_events = 0%nat.
Proof. reflexivity. Qed.

Ltac count_simpl :=
  rewrite ?count_app;
  rewrite ?hold_events_render, ?hold_events_failure_signal,
          ?hold_events_hold_sleep, ?hold_events_applied_log;
  rewrite ?(count_http is_render), ?(count_http is_failure_signal),
          ?(count_http is_hold_sleep), ?(count_http is_applied_log)
    by (assumption || apply http_not_render || apply http_not_failure_signal
        || apply http_not_hold_sleep || apply http_not_applied_log);
  cbn.

(** ** Running statements symbolically *)

Ltac red_stmt :=
  cbv beta iota delta
      [bind ret raise try_except lift read update emit if_not_in_failure
       failure_mode led_ok led_error_blink buzzer_error self_test_start
       self_test_success self_test_fail time_sleep datetime_now_utc
       requests_get requests_post raise_for_status response_json get_token
       stale_check
       exec result fst snd negb andb
       token last_to in_failure first_after_start net_calls clock_reads trace
       set_token set_last_to set_in_failure set_first_after_start
       add_event add_events count_net_call count_clock_read].

(** Case analysis on a scrutinee that has no case analysis inside. *)
Ltac split_innermost :=
  match goal with
  | |- context [match ?x with _ => _ end] =>
      lazymatch x with
      | context [match _ with _ => _ end] => fail
      | _ => destruct x eqn:?
      end
  end.

Ltac run_stmt := red_stmt; repeat (split_innermost; red_stmt).

(** [fetch_latest_rows] reads the clock once, talks to the network, and
    leaves the locals of [main] alone. *)
Lemma fetch_latest_rows_frame tok cid csec env m r m1 :
  fetch_latest_rows tok cid csec env m = (r, m1) ->
  same_locals m m1 /\ clock_reads m1 = S (clock_reads m) /\
  exists evs, trace m1 = trace m ++ evs /\ forallb is_http evs = true.
Proof.
  destruct m as [tk lt inf fas nc cr tr].
  unfold fetch_latest_rows, same_locals. run_stmt.
  all: intros H; inversion H; subst; clear H; red_stmt.
  all: (repeat split; try reflexivity).
  all: eexists; (split; [ repeat rewrite <- app_assoc; reflexivity | reflexivity ]).
Qed.

Lemma emit_all_run evs env m : emit_all evs env m = (inr tt, add_events evs m).
Proof.
  revert m. induction evs as [|ev evs IH]; intros m.
  - destruct m. unfold add_events. cbn. now rewrite app_nil_r.
  - cbn [emit_all]. unfold bind, emit, update. rewrite IH.
    destruct m. unfold add_events, add_event. cbn. now rewrite <- app_assoc.
Qed.

Lemma settle_hold_run env m : settle_hold env m = (inr tt, add_events hold_events m).
Proof. apply emit_all_run. Qed.

(** ** The value map *)

Lemma value_map_item_range k v :
  value_map_item k = inr v ->
  v = 0 \/ v = 1 \/ v = -1 \/ v = 2 \/ v = -2 \/ v = 3 \/ v = -3.
Proof.
  destruct k; try discriminate.
  unfold value_map_item, VALUE_MAP. cbn [dict_lookup].
  repeat match goal with
         | |- context [if ?b then _ else _] => destruct b; cbv iota
         end.
  all: intros H; try discriminate H; injection H as <-; tauto.
Qed.

Lemma apply_state_cases val env m :
  (exists e, value_map_item val = inl e /\ apply_state val env m = (inl e, m)) \/
  (exists v c, value_map_item val = inr v /\
               apply_state val env m = (inr tt, add_event (EvLedOk c) m)).
Proof.
  unfold apply_state, bind, lift.
  destruct (value_map_item val) as [e|v] eqn:Hv.
  - left. eauto.
  - right. exists v.
    destruct (value_map_item_range _ _ Hv) as [->|[->|[->|[->|[->|[->| ->]]]]]];
      eexists; (split; [reflexivity|]); reflexivity.
Qed.

Lemma value_map_contains_item k :
  value_map_contains k = inr true -> exists v, value_map_item k = inr v.
Proof.
  unfold value_map_contains, value_map_item.
  destruct k; try discriminate.
  destruct (dict_lookup s VALUE_MAP); [eauto | discriminate].
Qed.

(** ** One turn of the loop *)

Ltac split_call :=
  match goal with
  | |- context [fetch_latest_rows ?tok ?cid ?csec ?env ?m] =>
      let r := fresh "r" in
      let m1 := fresh "m1" in
      let Hf := fresh "Hfetch" in
      let Hfr := fresh "Hframe" in
      destruct (fetch_latest_rows tok cid csec env m) as [r m1] eqn:Hf;
      pose proof (fetch_latest_rows_frame _ _ _ _ _ _ _ Hf) as Hfr;
      destruct m1 as [tk1 lt1 inf1 fas1 nc1 cr1 tr1];
      destruct Hfr as ((Hl1 & Hl2 & Hl3 & Hl4) & Hcr & fevs & Htr & Hhttp);
      cbn [token last_to in_failure first_after_start clock_reads trace]
        in Hl1, Hl2, Hl3, Hl4, Hcr, Htr;
      subst tk1 lt1 inf1 fas1 cr1 tr1;
      destruct r as [?e|[?rows ?tok']]
  | |- context [apply_state ?v ?env ?m] =>
      let Hv := fresh "Hitem" in
      destruct (apply_state_cases v env m) as [(?e & Hv & ->) | (?v & ?c & Hv & ->)]
  | |- context [settle_hold ?env ?m] =>
      rewrite (settle_hold_run env m)
  end.

Ltac run_cycle :=
  red_stmt; repeat (first [split_call | split_innermost]; red_stmt).

(** What a turn can do, whatever the environment answers: it never raises;
    a failure signal is given exactly when [in_failure] goes from false to
    true; and either nothing is applied, or the end of the latest row is
    applied over an older (or absent) [last_to], with at most one render and
    a countdown exactly when the log line is written after the first one. *)
Lemma poll_cycle_facts cid csec env m :
  let m' := exec (poll_cycle cid csec) env m in
  poll_cycle cid csec env m = (inr tt, m') /\
  exists evs,
    trace m' = trace m ++ evs /\
    count is_failure_signal evs
    = (if negb (in_failure m) && in_failure m' then 1 else 0)%nat /\
    ((last_to m' = last_to m /\ first_after_start m' = first_after_start m /\
      count is_render evs = 0%nat /\ count is_hold_sleep evs = 0%nat /\
      count is_applied_log evs = 0%nat)
     \/
     (exists rows tok' m1 latest to t,
         fetch_latest_rows (token m) cid csec env m = (inr (rows, tok'), m1) /\
         subscript_last rows = inr latest /\
         subscript latest "To" = inr to /\
         iso_utc_call to = inr t /\
         last_to m' = Some t /\ newer_than (last_to m) t /\
         (count is_render evs <= 1)%nat /\
         ((count is_applied_log evs = 0%nat /\ count is_hold_sleep evs = 0%nat /\
           first_after_start m' = first_after_start m)
          \/
          (count is_applied_log evs = 1%nat /\ count is_render evs = 1%nat /\
           first_after_start m' = false /\
           count is_hold_sleep evs = if first_after_start m then 0%nat else 55%nat)))).
Proof.
  destruct m as [tk lt [|] [|] nc cr tr].
  all: unfold poll_cycle; run_cycle.
  all: split; [reflexivity|].
  all: eexists; split; [repeat rewrite <- app_assoc; reflexivity|].
  all: split; [count_simpl; reflexivity|].
  all: try (left; repeat split; count_simpl; reflexivity).
  all: right; do 6 eexists.
  all: split; [reflexivity|].
  all: do 3 (split; [eassumption|]).
  all: split; [reflexivity|].
  all: split; [first [exact I | assumption]|].
  all: split; [count_simpl; lia|].
  all: first [ left; repeat split; count_simpl; reflexivity
             | right; repeat split; count_simpl; reflexivity ].
Qed.

Lemma poll_cycle_extends cid csec env m :
  extends m (exec (poll_cycle cid csec) env m).
Proof.
  destruct (poll_cycle_facts cid csec env m) as (_ & evs & H & _). now exists evs.
Qed.

Lemma after_cycles_extends cid csec env k m :
  extends m (after_cycles cid csec env k m).
Proof.
  induction k as [|k IH]; cbn [after_cycles].
  - apply extends_refl.
  - eapply extends_trans; [exact IH | apply poll_cycle_extends].
Qed.

(** The first [n] turns of the loop never raise, and end in the machine
    that [after_cycles] names. *)
Lemma after_cycles_shift cid csec env k m :
  after_cycles cid csec env (S k) m
  = after_cycles cid csec env k (exec (poll_cycle cid csec) env m).
Proof.
  induction k as [|k IH]; [reflexivity|].
  change (after_cycles cid csec env (S (S k)) m)
    with (exec (poll_cycle cid csec) env (after_cycles cid csec env (S k) m)).
  rewrite IH. reflexivity.
Qed.

Lemma loop_run cid csec env n m :
  loop cid csec n env m = (inr tt, after_cycles cid csec env n m).
Proof.
  revert m. induction n as [|n IH]; intros m; [reflexivity|].
  rewrite after_cycles_shift. cbn [loop]. unfold bind at 1.
  destruct (poll_cycle_facts cid csec env m) as (-> & _). apply IH.
Qed.
(** ** Timestamps that reach the loop *)

Lemma astimezone_utc_aware dt t : astimezone_utc dt = inr t -> tzinfo t = timezone_utc.
Proof.
  unfold astimezone_utc. destruct (tzinfo dt); [|discriminate].
  destruct (_ && _); [|discriminate]. intros H. injection H as <-. reflexivity.
Qed.

Lemma iso_utc_aware ts t : iso_utc ts = inr t -> tzinfo t = timezone_utc.
Proof.
  unfold iso_utc, rbind. destruct (fromisoformat _); [discriminate|].
  apply astimezone_utc_aware.
Qed.

Lemma iso_utc_call_aware v t : iso_utc_call v = inr t -> tzinfo t = timezone_utc.
Proof. destruct v; try discriminate. apply iso_utc_aware. Qed.

Lemma dt_gt_instant a b : dt_gt a b = inr true -> instant b < instant a.
Proof.
  unfold dt_gt, instant.
  destruct (tzinfo a), (tzinfo b); try discriminate;
    intros H; injection H as H; lia.
Qed.

Lemma dt_gt_irrefl a : dt_gt a a <> inr true.
Proof. intros H. apply dt_gt_instant in H. lia. Qed.

Lemma dt_sub_now now t :
  tzinfo t = timezone_utc ->
  dt_sub (mkDatetime now timezone_utc) t = inr (now - instant t).
Proof.
  unfold dt_sub, instant. intros ->. cbn. f_equal. lia.
Qed.

(** ** The startup probe *)

(** The probe never raises, never counts down and leaves
    [first_after_start] alone; it signals failure exactly when it ends in
    failure; what it leaves in [last_to] came out of [iso_utc]. *)
Lemma startup_probe_facts cid csec env m :
  let m' := exec (startup_probe cid csec) env m in
  startup_probe cid csec env m = (inr tt, m') /\
  first_after_start m' = first_after_start m /\
  (last_to m' = last_to m \/ exists v t, iso_utc_call v = inr t /\ last_to m' = Some t) /\
  exists evs,
    trace m' = trace m ++ evs /\
    count is_hold_sleep evs = 0%nat /\
    count is_applied_log evs = 0%nat /\
    (count is_render evs <= 1)%nat /\
    count is_failure_signal evs = (if in_failure m' then 1 else 0)%nat.
Proof.
  destruct m as [tk lt inf fas nc cr tr].
  unfold startup_probe; run_cycle.
  all: split; [reflexivity|].
  all: split; [reflexivity|].
  all: split; [first [left; reflexivity | right; eauto]|].
  all: eexists; split; [repeat rewrite <- app_assoc; reflexivity|].
  all: repeat split; count_simpl; lia.
Qed.

Lemma started_facts tok cid csec env m0 :
  let m := started tok cid csec env m0 in
  first_after_start m = true /\ last_to_aware m /\
  exists evs, trace m = trace m0 ++ evs /\ count is_hold_sleep evs = 0%nat.
Proof.
  unfold started, main_from. cbn [loop].
  destruct m0 as [tk lt inf fas nc cr tr]. red_stmt.
  match goal with
  | |- context [startup_probe cid csec env ?m] =>
      destruct (startup_probe_facts cid csec env m)
        as (Hrun & Hfas & Hlt & evs & Htr & Hhold & _)
  end.
  cbn [first_after_start last_to trace] in Hfas, Hlt, Htr.
  rewrite Hrun.
  match goal with
  | |- context [exec (startup_probe cid csec) env ?m] =>
      generalize dependent (exec (startup_probe cid csec) env m); intros m'; intros
  end.
  red_stmt. destruct m' as [tk' lt' inf' fas' nc' cr' tr'].
  cbn [first_after_start last_to trace] in *.
  split; [exact Hfas|]. split.
  - intros p Hp. destruct Hlt as [Hlt | (v & t & Hiso & Hlt)]; rewrite Hlt in Hp.
    + discriminate.
    + injection Hp as <-. exact (iso_utc_call_aware _ _ Hiso).
  - exists ([EvSelfTestStart] ++ evs). split.
    + rewrite Htr. now rewrite <- app_assoc.
    + rewrite count_app, Hhold. reflexivity.
Qed.

Lemma poll_cycle_keeps_aware cid csec env m :
  last_to_aware m -> last_to_aware (exec (poll_cycle cid csec) env m).
Proof.
  intros Hm p Hp.
  destruct (poll_cycle_facts cid csec env m) as (_ & evs & _ & _ & [H | H]).
  - destruct H as (Hlt & _). rewrite Hlt in Hp. now apply Hm.
  - destruct H as (rows & tok' & m1 & latest & to & t & _ & _ & _ & Hiso & Hlt & _).
    rewrite Hlt in Hp. injection Hp as <-. exact (iso_utc_call_aware _ _ Hiso).
Qed.

Lemma after_cycles_keeps_aware cid csec env k m :
  last_to_aware m -> last_to_aware (after_cycles cid csec env k m).
Proof.
  intros Hm. induction k as [|k IH]; [exact Hm|].
  cbn [after_cycles]. now apply poll_cycle_keeps_aware.
Qed.

(** [main], once it has its token, is the startup probe and then the turns
    of the loop. *)
Lemma main_from_run tok cid csec env n m0 :
  exec (main_from tok cid csec n) env m0
  = after_cycles cid csec env n (started tok cid csec env m0).
Proof.
  unfold started, main_from, exec. cbn [loop].
  destruct m0 as [tk lt inf fas nc cr tr]. red_stmt.
  match goal with
  | |- context [startup_probe cid csec env ?m] =>
      destruct (startup_probe_facts cid csec env m) as (Hrun & _)
  end.
  rewrite Hrun. red_stmt. rewrite loop_run. red_stmt. reflexivity.
Qed.

(** ** Failure signalling *)

Lemma poll_cycle_failure_signals cid csec env m :
  let m' := exec (poll_cycle cid csec) env m in
  count is_failure_signal (emitted m m')
  = (if negb (in_failure m) && in_failure m' then 1 else 0)%nat.
Proof.
  destruct (poll_cycle_facts cid csec env m) as (_ & evs & Htr & Hsig & _).
  cbv zeta. now rewrite (emitted_app _ _ _ Htr).
Qed.

Lemma failing_run_failure_signals cid csec env m n :
  (forall k, (1 <= k <= n)%nat -> in_failure (after_cycles cid csec env k m) = true) ->
  count is_failure_signal (emitted m (after_cycles cid csec env n m))
  = (if (n =? 0)%nat || in_failure m then 0 else 1)%nat.
Proof.
  induction n as [|n IH]; intros Hfail.
  - cbn [after_cycles]. rewrite (emitted_app m m []) by now rewrite app_nil_r.
    reflexivity.
  - cbn [after_cycles].
    rewrite (emitted_trans m (after_cycles cid csec env n m))
      by (apply after_cycles_extends || apply poll_cycle_extends).
    rewrite count_app, IH by (intros k Hk; apply Hfail; lia).
    rewrite poll_cycle_failure_signals.
    change (exec (poll_cycle cid csec) env (after_cycles cid csec env n m))
      with (after_cycles cid csec env (S n) m).
    rewrite (Hfail (S n)) by lia.
    destruct n as [|n].
    + cbn [after_cycles]. now destruct (in_failure m).
    + rewrite (Hfail (S n)) by lia. cbn. now destruct (in_failure m).
Qed.

(** C1 (as the code has it): over any stretch of consecutive poll cycles
    none of which ends healthy (each leaves [in_failure] set), the failure
    signal of the Indicator Driver is given at most once, however many
    cycles fail and whatever their reasons. *)
Theorem failure_signalled_once_until_healthy cid csec env m n :
  (forall k, (1 <= k <= n)%nat -> in_failure (after_cycles cid csec env k m) = true) ->
  (count is_failure_signal (emitted m (after_cycles cid csec env n m)) <= 1)%nat.
Proof.
  intros H. rewrite (failing_run_failure_signals _ _ _ _ _ H).
  destruct ((n =? 0)%nat || in_failure m); lia.
Qed.

Lemma failure_signalled_once_until_healthy_witness :
  (count is_failure_signal
         (emitted (exec (main None None 0) env_goes_down boot)
                  (after_cycles None None env_goes_down 3
                                (exec (main None None 0) env_goes_down boot)))
   <= 1)%nat.
Proof.
  apply failure_signalled_once_until_healthy.
  intros k Hk.
  assert (k = 1 \/ k = 2 \/ k = 3)%nat as [->|[->| ->]] by lia; vm_compute; reflexivity.
Defined.

(** C1, counterexample: a healthy poll that applies nothing clears
    [in_failure] without rendering, so two failure signals fit between two
    consecutive renders. *)
Lemma two_failure_signals_between_renders :
  ~ at_most_one_failure_between_renders (trace (exec (main None None 4) env_flapping boot)).
Proof.
  intros H.
  set (tr := trace (exec (main None None 4) env_flapping boot)) in H.
  specialize (H (firstn 4 tr) "blue" (firstn 14 (skipn 5 tr)) "red" (skipn 20 tr)).
  vm_compute in H. specialize (H eq_refl eq_refl). lia.
Qed.

(** ** What is applied, and when *)

Lemma newer_than_instant prev t :
  newer_than prev t ->
  prev = None \/ exists p, prev = Some p /\ instant p < instant t.
Proof.
  destruct prev as [p|]; [|now left].
  intros H. right. exists p. split; [reflexivity|]. now apply dt_gt_instant.
Qed.

Lemma poll_cycle_last_to cid csec env m p :
  last_to m = Some p ->
  exists t, last_to (exec (poll_cycle cid csec) env m) = Some t /\
            (t = p \/ instant p < instant t).
Proof.
  intros Hp.
  destruct (poll_cycle_facts cid csec env m) as (_ & evs & _ & _ & [H | H]).
  - destruct H as (Hlt & _). exists p. rewrite Hlt. auto.
  - destruct H as (rows & tok' & m1 & latest & to & t & _ & _ & _ & _ & Hlt & Hnew & _).
    exists t. split; [exact Hlt|]. right.
    rewrite Hp in Hnew. now apply dt_gt_instant.
Qed.

(** C5: once set, [last_to] never decreases over the life of the loop, and
    every change of it is a strict increase. *)
Theorem last_to_never_decreases cid csec env m j k t :
  (j <= k)%nat ->
  last_to (after_cycles cid csec env j m) = Some t ->
  exists t', last_to (after_cycles cid csec env k m) = Some t' /\
             instant t <= instant t' /\
             (t' <> t -> instant t < instant t').
Proof.
  intros Hjk Ht. induction Hjk as [|k Hjk IH].
  - exists t. split; [exact Ht|]. split; [lia|]. congruence.
  - destruct IH as (t1 & Ht1 & Hle & Hlt).
    cbn [after_cycles].
    destruct (poll_cycle_last_to cid csec env _ _ Ht1) as (t2 & Ht2 & [-> | Hnew]).
    + exists t1. auto.
    + exists t2. split; [exact Ht2|]. split; lia.
Qed.

Lemma last_to_never_decreases_witness :
  exists t', last_to (after_cycles None None env_healthy 3
                                   (exec (main None None 0) env_healthy boot)) = Some t' /\
             instant (mkDatetime (at_time 13 23 0) timezone_utc) <= instant t' /\
             (t' <> mkDatetime (at_time 13 23 0) timezone_utc ->
              instant (mkDatetime (at_time 13 23 0) timezone_utc) < instant t').
Proof.
  apply (last_to_never_decreases None None env_healthy
           (exec (main None None 0) env_healthy boot) 0 3).
  - lia.
  - vm_compute. reflexivity.
Defined.

(** C4: a latest row whose end equals [last_to] is neither rendered nor
    held for, and [last_to] stays; whenever a turn renders or counts down,
    the end of its latest row was applied over an absent or strictly older
    [last_to]. *)
Theorem same_window_end_is_not_reapplied cid csec env m :
  let m' := exec (poll_cycle cid csec) env m in
  let evs := emitted m m' in
  (forall rows tok' m1 latest to t,
      fetch_latest_rows (token m) cid csec env m = (inr (rows, tok'), m1) ->
      subscript_last rows = inr latest ->
      subscript latest "To" = inr to ->
      iso_utc_call to = inr t ->
      last_to m = Some t ->
      count is_render evs = 0%nat /\ count is_hold_sleep evs = 0%nat /\
      last_to m' = Some t)
  /\
  ((0 < count is_render evs)%nat \/ (0 < count is_hold_sleep evs)%nat ->
   exists rows tok' m1 latest to t,
     fetch_latest_rows (token m) cid csec env m = (inr (rows, tok'), m1) /\
     subscript_last rows = inr latest /\
     subscript latest "To" = inr to /\
     iso_utc_call to = inr t /\
     last_to m' = Some t /\
     (last_to m = None \/ exists p, last_to m = Some p /\ instant p < instant t)).
Proof.
  cbv zeta.
  destruct (poll_cycle_facts cid csec env m) as (_ & evs & Htr & _ & H).
  rewrite (emitted_app _ _ _ Htr).
  split.
  - intros rows tok' m1 latest to t Hfetch Hlast Hto Hiso Hprev.
    destruct H as [(Hlt & _ & Hr & Hh & _) | H].
    + rewrite Hlt. auto.
    + destruct H as (rows' & tok'' & m1' & latest' & to' & t' & Hfetch' & Hlast'
                     & Hto' & Hiso' & _ & Hnew & _).
      exfalso.
      assert (rows' = rows) as -> by congruence.
      assert (latest' = latest) as -> by congruence.
      assert (to' = to) as -> by congruence.
      assert (t' = t) as -> by congruence.
      rewrite Hprev in Hnew. exact (dt_gt_irrefl _ Hnew).
  - intros Hsome.
    destruct H as [(_ & _ & Hr & Hh & _) | H]; [lia|].
    destruct H as (rows & tok' & m1 & latest & to & t & Hfetch & Hlast
                   & Hto & Hiso & Hlt & Hnew & _).
    exists rows, tok', m1, latest, to, t.
    repeat (split; [assumption|]). now apply newer_than_instant.
Qed.

Lemma same_window_end_is_not_reapplied_witness :
  let m := after_cycles None None env_flapping 1 (exec (main None None 0) env_flapping boot) in
  let m' := exec (poll_cycle None None) env_flapping m in
  count is_render (emitted m m') = 0%nat /\ count is_hold_sleep (emitted m m') = 0%nat /\
  last_to m' = Some (mkDatetime (at_time 13 23 0) timezone_utc).
Proof.
  cbv zeta.
  refine (proj1 (same_window_end_is_not_reapplied None None env_flapping
                   (after_cycles None None env_flapping 1
                                 (exec (main None None 0) env_flapping boot)))
                (JList [window_1322]) (JStr "tok-1")
                (snd (fetch_latest_rows (JStr "tok-1") None None env_flapping
                        (after_cycles None None env_flapping 1
                                      (exec (main None None 0) env_flapping boot))))
                window_1322 (JStr "2025-09-08T13:23:00Z")
                (mkDatetime (at_time 13 23 0) timezone_utc) _ _ _ _ _).
  all: vm_compute; reflexivity.
Defined.

(** ** The settle hold *)

Lemma poll_cycle_hold cid csec env m :
  let m' := exec (poll_cycle cid csec) env m in
  let evs := emitted m m' in
  (count is_applied_log evs = 0%nat /\ count is_hold_sleep evs = 0%nat /\
   first_after_start m' = first_after_start m)
  \/
  (count is_applied_log evs = 1%nat /\ count is_render evs = 1%nat /\
   first_after_start m' = false /\
   count is_hold_sleep evs = if first_after_start m then 0%nat else 55%nat).
Proof.
  cbv zeta.
  destruct (poll_cycle_facts cid csec env m) as (_ & evs & Htr & _ & H).
  rewrite (emitted_app _ _ _ Htr).
  destruct H as [(_ & Hf & _ & Hh & Hl) | H]; [now left|].
  destruct H as (rows & tok' & m1 & latest & to & t & _ & _ & _ & _ & _ & _ & _ & H).
  exact H.
Qed.

(** [first_after_start] is still set exactly when no turn so far has
    written the log line of an application. *)
Lemma first_after_start_iff cid csec env m k :
  first_after_start m = true ->
  first_after_start (after_cycles cid csec env k m) = true <->
  (forall j, (j < k)%nat ->
             count is_applied_log
                   (emitted (after_cycles cid csec env j m)
                            (after_cycles cid csec env (S j) m)) = 0%nat).
Proof.
  intros Hm. induction k as [|k IH].
  - cbn [after_cycles]. split; [intros _ j Hj; lia | auto].
  - change (after_cycles cid csec env (S k) m)
      with (exec (poll_cycle cid csec) env (after_cycles cid csec env k m)) at 1.
    destruct (poll_cycle_hold cid csec env (after_cycles cid csec env k m))
      as [(Hl & _ & Hf) | (Hl & _ & Hf & _)].
    + rewrite Hf, IH. split.
      * intros H j Hj. destruct (Nat.eq_dec j k) as [->|]; [exact Hl | apply H; lia].
      * intros H j Hj. apply H. lia.
    + rewrite Hf. split; [discriminate|].
      intros H. specialize (H k (Nat.lt_succ_diag_r k)). cbn [after_cycles] in H.
      rewrite Hl in H. discriminate.
Qed.

(** A turn that writes the log line of an application has done, in this
    order: the requests of its fetch, the render, the log line, the
    countdown unless [first_after_start] was set, whatever the stale check
    signals, and the poll sleep. *)
Lemma logged_turn_shape cid csec env m :
  let m' := exec (poll_cycle cid csec) env m in
  count is_applied_log (emitted m m') = 1%nat ->
  exists fevs c f_loc t_loc v age,
    forallb is_http fevs = true /\
    emitted m m'
    = fevs ++ [EvLedOk c; EvLogInfo false f_loc t_loc v]
      ++ (if first_after_start m then [] else hold_events)
      ++ stale_events (in_failure m) age ++ [EvSleep POLL_INTERVAL_MS] /\
    in_failure m' = (age >? STALE_AFTER).
Proof.
  cbv zeta. destruct m as [tk lt [|] [|] nc cr tr].
  all: unfold poll_cycle; run_cycle.
  all: erewrite emitted_app by (cbn [trace]; repeat rewrite <- app_assoc; reflexivity).
  all: intros Hlog.
  all: try (exfalso; revert Hlog; count_simpl; discriminate).
  all: try match goal with
           | Hiso : iso_utc_call _ = inr ?d, Hsub : dt_sub _ ?d = inl _ |- _ =>
               rewrite (dt_sub_now _ _ (iso_utc_call_aware _ _ Hiso)) in Hsub;
               discriminate Hsub
           end.
  all: match goal with
       | Hsub : dt_sub _ ?d = inr ?z, Hage : (?z >? STALE_AFTER) = _
         |- context [EvLedOk ?c :: _] =>
           match goal with
           | |- context [EvLogInfo false ?f ?t ?v] =>
               exists fevs, c, f, t, v, z
           end;
           unfold stale_events, failure_entry; rewrite Hage
       end.
  all: split; [assumption|]; split; reflexivity.
Qed.

(** C2 (as the code has it): the startup probe never counts down and
    leaves [first_after_start] set; of the turns of the loop that apply an
    observation and write its log line, the first one goes from the log
    line straight to what the stale check signals, and every later one
    holds in between for the countdown of 55 one-second sleeps: the hold
    comes after the render and the log line, and before anything the stale
    check signals and before the poll sleep that ends the turn. *)
Theorem first_logged_application_skips_hold tok cid csec env m0 k :
  let ms := fun j => after_cycles cid csec env j (started tok cid csec env m0) in
  let evs := fun j => emitted (ms j) (ms (S j)) in
  count is_hold_sleep (emitted m0 (ms 0%nat)) = 0%nat /\
  first_after_start (ms 0%nat) = true /\
  (count is_applied_log (evs k) = 1%nat ->
   count is_render (evs k) = 1%nat /\
   ((forall j, (j < k)%nat -> count is_applied_log (evs j) = 0%nat) ->
    count is_hold_sleep (evs k) = 0%nat) /\
   ((exists j, (j < k)%nat /\ count is_applied_log (evs j) = 1%nat) ->
    count is_hold_sleep (evs k) = 55%nat) /\
   exists fevs c f_loc t_loc v age,
     forallb is_http fevs = true /\
     in_failure (ms (S k)) = (age >? STALE_AFTER) /\
     ((forall j, (j < k)%nat -> count is_applied_log (evs j) = 0%nat) ->
      evs k = fevs ++ [EvLedOk c; EvLogInfo false f_loc t_loc v]
              ++ stale_events (in_failure (ms k)) age ++ [EvSleep POLL_INTERVAL_MS]) /\
     ((exists j, (j < k)%nat /\ count is_applied_log (evs j) = 1%nat) ->
      evs k = fevs ++ [EvLedOk c; EvLogInfo false f_loc t_loc v]
              ++ hold_events
              ++ stale_events (in_failure (ms k)) age ++ [EvSleep POLL_INTERVAL_MS])).
Proof.
  cbv zeta.
  destruct (started_facts tok cid csec env m0) as (Hfas & _ & evs0 & Htr0 & Hhold0).
  split; [cbn [after_cycles]; now rewrite (emitted_app _ _ _ Htr0)|].
  split; [exact Hfas|].
  intros Hlog.
  pose proof (first_after_start_iff cid csec env _ k Hfas) as Hiff.
  cbn [after_cycles] in Hlog |- *.
  set (m := after_cycles cid csec env k (started tok cid csec env m0)) in *.
  assert (Hfirst : (forall j, (j < k)%nat ->
                      count is_applied_log
                        (emitted (after_cycles cid csec env j (started tok cid csec env m0))
                           (exec (poll_cycle cid csec) env
                              (after_cycles cid csec env j (started tok cid csec env m0))))
                      = 0%nat) -> first_after_start m = true)
    by (intros Hnone; now apply Hiff).
  assert (Hlater : (exists j, (j < k)%nat /\
                      count is_applied_log
                        (emitted (after_cycles cid csec env j (started tok cid csec env m0))
                           (exec (poll_cycle cid csec) env
                              (after_cycles cid csec env j (started tok cid csec env m0))))
                      = 1%nat) -> first_after_start m = false).
  { intros (j & Hj & Hlogj). apply not_true_is_false. intros E.
    pose proof (proj1 Hiff E j Hj) as Hnone.
    cbn [after_cycles] in Hnone. rewrite Hnone in Hlogj. discriminate. }
  destruct (poll_cycle_hold cid csec env m) as [(Hl & _) | (_ & Hr & _ & Hh)];
    [rewrite Hl in Hlog; discriminate|].
  split; [exact Hr|].
  split; [intros Hnone; now rewrite (Hfirst Hnone) in Hh|].
  split; [intros Hsome; now rewrite (Hlater Hsome) in Hh|].
  destruct (logged_turn_shape cid csec env m Hlog)
    as (fevs & c & f_loc & t_loc & v & age & Hhttp & Hshape & Hfail).
  exists fevs, c, f_loc, t_loc, v, age.
  split; [exact Hhttp|]. split; [exact Hfail|]. split.
  - intros Hnone. now rewrite (Hfirst Hnone) in Hshape.
  - intros Hsome. now rewrite (Hlater Hsome) in Hshape.
Qed.

(** C2, counterexample: the startup probe applies one window and the first
    turn of the loop the next one; neither is followed by a countdown. *)
Lemma second_application_skips_hold :
  ~ later_applications_hold (trace (exec (main None None 1) env_healthy boot)).
Proof.
  intros H.
  set (tr := trace (exec (main None None 1) env_healthy boot)) in H.
  specialize (H (firstn 7 tr) "red" (skipn 8 tr)).
  vm_compute in H. specialize (H eq_refl). lia.
Qed.

Lemma first_logged_application_skips_hold_witness :
  let ms := fun j => after_cycles None None env_healthy j
                       (started (JStr "tok-1") None None env_healthy
                                (exec (get_token None None) env_healthy boot)) in
  count is_hold_sleep (emitted (ms 0%nat) (ms 1%nat)) = 0%nat /\
  count is_hold_sleep (emitted (ms 2%nat) (ms 3%nat)) = 55%nat /\
  exists fevs c f_loc t_loc v age,
    emitted (ms 2%nat) (ms 3%nat)
    = fevs ++ [EvLedOk c; EvLogInfo false f_loc t_loc v] ++ hold_events
      ++ stale_events (in_failure (ms 2%nat)) age ++ [EvSleep POLL_INTERVAL_MS].
Proof.
  cbv zeta. split; [|split].
  - refine (proj1 (proj2 (proj2 (proj2 (first_logged_application_skips_hold
                                   (JStr "tok-1") None None env_healthy
                                   (exec (get_token None None) env_healthy boot) 0)) _)) _).
    + vm_compute. reflexivity.
    + intros j Hj. lia.
  - refine (proj1 (proj2 (proj2 (proj2 (proj2 (first_logged_application_skips_hold
                                   (JStr "tok-1") None None env_healthy
                                   (exec (get_token None None) env_healthy boot) 2)) _))) _).
    + vm_compute. reflexivity.
    + exists 0%nat. split; [lia | vm_compute; reflexivity].
  - destruct (proj2 (proj2 (proj2 (proj2 (proj2 (first_logged_application_skips_hold
                                   (JStr "tok-1") None None env_healthy
                                   (exec (get_token None None) env_healthy boot) 2))
                                      ltac:(vm_compute; reflexivity)))))
      as (fevs & c & f_loc & t_loc & v & age & _ & _ & _ & Hlater).
    exists fevs, c, f_loc, t_loc, v, age. apply Hlater.
    exists 0%nat. split; [lia | vm_compute; reflexivity].
Defined.

(** ** Staleness *)

Lemma dt_gt_aware a b :
  tzinfo a = timezone_utc -> tzinfo b = timezone_utc ->
  exists c, dt_gt a b = inr c.
Proof. unfold dt_gt. intros -> ->. cbn. eauto. Qed.

(** A turn that meets a known label on a row whose end parses goes on to
    the stale check, and ends in failure exactly when that check finds the
    row older than the threshold; a newly applied row must also
    yield its log line. *)
Lemma poll_cycle_known_row cid csec env m rows tok' m1 latest val to t :
  last_to_aware m ->
  fetch_latest_rows (token m) cid csec env m = (inr (rows, tok'), m1) ->
  truthy rows = true ->
  subscript_last rows = inr latest ->
  dict_get latest "Value" = inr val ->
  value_map_contains val = inr true ->
  subscript latest "To" = inr to ->
  iso_utc_call to = inr t ->
  (newer_than (last_to m) t -> exists w, window_text latest t = inr w) ->
  in_failure (exec (poll_cycle cid csec) env m)
  = (clock env (clock_reads m1) - instant t >? STALE_AFTER).
Proof.
  intros Haware Hfetch Htruthy Hlast Hval Hknown Hto Hiso Hlog.
  pose proof (iso_utc_call_aware _ _ Hiso) as Ht.
  destruct (value_map_contains_item _ Hknown) as (v & Hv).
  destruct (fetch_latest_rows_frame _ _ _ _ _ _ _ Hfetch)
    as ((Hl1 & Hl2 & Hl3 & Hl4) & Hcr & fevs & Htr & Hhttp).
  destruct m as [tk lt inf fas nc cr tr], m1 as [tk1 lt1 inf1 fas1 nc1 cr1 tr1].
  cbn [token last_to in_failure first_after_start clock_reads trace] in *.
  subst tk1 lt1 inf1 fas1 cr1 tr1.
  assert (Hcmp : match lt with
                 | None => True
                 | Some p => exists c, dt_gt t p = inr c
                 end).
  { destruct lt as [p|]; [|exact I]. apply dt_gt_aware; [exact Ht|]. now apply Haware. }
  unfold poll_cycle. red_stmt. rewrite Hfetch. red_stmt.
  rewrite Htruthy. red_stmt. rewrite Hlast. red_stmt. rewrite Hval. red_stmt.
  rewrite Hknown. red_stmt. rewrite Hto. red_stmt. rewrite Hiso. red_stmt.
  destruct lt as [p|].
  - destruct Hcmp as ([|] & Hc); rewrite Hc; red_stmt.
    + destruct (Hlog Hc) as ([f_loc t_loc] & Hw).
      destruct (apply_state_cases val env
                  {| token := tok'; last_to := Some t; in_failure := inf;
                     first_after_start := fas; net_calls := nc1;
                     clock_reads := S cr; trace := tr ++ fevs |})
        as [(e & He & _) | (v' & c & _ & ->)]; [congruence|].
      red_stmt. rewrite Hw. red_stmt. rewrite Hv. red_stmt.
      destruct fas; red_stmt; rewrite ?settle_hold_run; red_stmt;
        rewrite (dt_sub_now _ _ Ht); red_stmt;
        destruct (_ >? STALE_AFTER); red_stmt; destruct inf; reflexivity.
    + rewrite (dt_sub_now _ _ Ht); red_stmt;
        destruct (_ >? STALE_AFTER); red_stmt; destruct inf; reflexivity.
  - red_stmt.
    destruct (Hlog I) as ([f_loc t_loc] & Hw).
    destruct (apply_state_cases val env
                {| token := tok'; last_to := Some t; in_failure := inf;
                   first_after_start := fas; net_calls := nc1;
                   clock_reads := S cr; trace := tr ++ fevs |})
      as [(e & He & _) | (v' & c & _ & ->)]; [congruence|].
    red_stmt. rewrite Hw. red_stmt. rewrite Hv. red_stmt.
    destruct fas; red_stmt; rewrite ?settle_hold_run; red_stmt;
      rewrite (dt_sub_now _ _ Ht); red_stmt;
      destruct (_ >? STALE_AFTER); red_stmt; destruct inf; reflexivity.
Qed.

(** C3 (as the code has it): in every run, a turn whose fetch returns rows,
    with a known label on the latest row and an end that the stale check
    finds no older than two minutes, clears [in_failure], provided that,
    when the row is newly applied, its log line can be written (its [From]
    parses); a row that is not newer is not applied again and [last_to]
    stays. *)
Theorem fresh_poll_clears_failure
        tok cid csec env m0 k rows tok' m1 latest val to t :
  let m := after_cycles cid csec env k (started tok cid csec env m0) in
  let m' := exec (poll_cycle cid csec) env m in
  fetch_latest_rows (token m) cid csec env m = (inr (rows, tok'), m1) ->
  truthy rows = true ->
  subscript_last rows = inr latest ->
  dict_get latest "Value" = inr val ->
  value_map_contains val = inr true ->
  subscript latest "To" = inr to ->
  iso_utc_call to = inr t ->
  clock env (clock_reads m1) - instant t <= STALE_AFTER ->
  (newer_than (last_to m) t -> exists w, window_text latest t = inr w) ->
  in_failure m' = false /\
  (~ newer_than (last_to m) t ->
   last_to m' = last_to m /\ count is_render (emitted m m') = 0%nat).
Proof.
  cbv zeta. intros Hfetch Htruthy Hlast Hval Hknown Hto Hiso Hfresh Hlog.
  split.
  - rewrite (poll_cycle_known_row cid csec env _ rows tok' m1 latest val to t);
      try assumption.
    + rewrite Z.gtb_ltb. apply Z.ltb_ge. exact Hfresh.
    + apply after_cycles_keeps_aware.
      now destruct (started_facts tok cid csec env m0) as (_ & H & _).
  - intros Hold.
    destruct (poll_cycle_facts cid csec env
                (after_cycles cid csec env k (started tok cid csec env m0)))
      as (_ & evs & Htr & _ & [H | H]).
    + rewrite (emitted_app _ _ _ Htr). tauto.
    + destruct H as (rows' & tok'' & m1' & latest' & to' & t' & Hfetch' & Hlast'
                     & Hto' & Hiso' & _ & Hnew & _).
      exfalso. apply Hold.
      assert (rows' = rows) as -> by congruence.
      assert (latest' = latest) as -> by congruence.
      assert (to' = to) as -> by congruence.
      assert (t' = t) as -> by congruence.
      exact Hnew.
Qed.

Lemma fresh_poll_clears_failure_witness :
  let m := after_cycles None None env_flapping 1
             (started (JStr "tok-1") None None env_flapping
                      (exec (get_token None None) env_flapping boot)) in
  in_failure m = true /\
  in_failure (exec (poll_cycle None None) env_flapping m) = false.
Proof.
  cbv zeta. split; [vm_compute; reflexivity|].
  refine (proj1 (fresh_poll_clears_failure
                   (JStr "tok-1") None None env_flapping
                   (exec (get_token None None) env_flapping boot) 1
                   (JList [window_1322]) (JStr "tok-1")
                   (snd (fetch_latest_rows (JStr "tok-1") None None env_flapping
                           (after_cycles None None env_flapping 1
                              (started (JStr "tok-1") None None env_flapping
                                 (exec (get_token None None) env_flapping boot)))))
                   window_1322 (JStr "BLUE") (JStr "2025-09-08T13:23:00Z")
                   (mkDatetime (at_time 13 23 0) timezone_utc)
                   _ _ _ _ _ _ _ _ _)).
  all: try (vm_compute; reflexivity).
  - vm_compute. discriminate.
  - intros H. vm_compute in H. discriminate.
Defined.

(** C3, counterexample: the startup probe has timed out; the first poll
    returns a fresh row with a known label whose [From] is not a timestamp.
    The row is applied, writing its log line raises, and [in_failure]
    stays set. *)
Lemma fresh_known_row_keeps_failure :
  ~ fresh_known_row_clears_failure None None env_bad_from
      (exec (main None None 0) env_bad_from boot).
Proof.
  intros H.
  specialize (H (JList [row "n/a" "2025-09-08T13:23:00Z" "BLUE"]) (JStr "tok-1")
                (snd (fetch_latest_rows (JStr "tok-1") None None env_bad_from
                                        (exec (main None None 0) env_bad_from boot)))
                (row "n/a" "2025-09-08T13:23:00Z" "BLUE") (JStr "BLUE")
                (JStr "2025-09-08T13:23:00Z")
                (mkDatetime (at_time 13 23 0) timezone_utc)).
  vm_compute in H.
  assert (Hfresh : (10000000 ?= 120000000) = Gt -> False) by discriminate.
  specialize (H eq_refl eq_refl eq_refl eq_refl eq_refl eq_refl eq_refl Hfresh).
  discriminate H.
Qed.

Lemma stale_check_run env m t off :
  tzinfo t = Some off ->
  let age := clock env (clock_reads m) - instant t in
  stale_check t env m
  = (inr tt,
     if age >? STALE_AFTER
     then if in_failure m
          then count_clock_read m
          else set_in_failure true
                 (add_events [EvLogError (StaleData age); EvLedErrorBlink; EvBuzzerError]
                             (count_clock_read m))
     else set_in_failure false (count_clock_read m)).
Proof.
  intros Ht. cbv zeta. destruct m as [tk lt inf fas nc cr tr]. red_stmt.
  unfold dt_sub, instant, timezone_utc. cbn [tzinfo wall_us]. rewrite Ht.
  replace (clock env cr - 0 - (wall_us t - off)) with (clock env cr - (wall_us t - off))
    by lia.
  destruct (_ >? STALE_AFTER); red_stmt; [|reflexivity].
  destruct inf; red_stmt; [reflexivity|].
  now rewrite <- !app_assoc.
Qed.

(** C6: with the threshold at two minutes, the stale check classes a row
    that ended two minutes and one second before its reading of the clock
    as stale (the turn ends in failure, signalled unless already in
    failure), and a row that ended one minute and fifty-nine seconds
    before it as fresh ([in_failure] is cleared, nothing is signalled). *)
Theorem staleness_boundary env m t off :
  tzinfo t = Some off ->
  let now := clock env (clock_reads m) in
  let m' := exec (stale_check t) env m in
  (instant t = now - (minutes 2 + seconds 1) ->
   in_failure m' = true /\
   emitted m m'
   = if in_failure m then []
     else [EvLogError (StaleData (minutes 2 + seconds 1)); EvLedErrorBlink; EvBuzzerError])
  /\
  (instant t = now - (minutes 1 + seconds 59) ->
   in_failure m' = false /\ emitted m m' = []).
Proof.
  intros Ht. cbv zeta. unfold exec. rewrite (stale_check_run _ _ _ _ Ht). cbn [snd].
  split; intros Hend.
  - replace (clock env (clock_reads m) - instant t) with (minutes 2 + seconds 1) by lia.
    change (minutes 2 + seconds 1 >? STALE_AFTER) with true. cbv iota.
    destruct m as [tk lt [|] fas nc cr tr]; cbn [in_failure]; (split; [reflexivity|]);
      apply emitted_app; cbn; now rewrite ?app_nil_r.
  - replace (clock env (clock_reads m) - instant t) with (minutes 1 + seconds 59) by lia.
    change (minutes 1 + seconds 59 >? STALE_AFTER) with false. cbv iota.
    destruct m as [tk lt inf fas nc cr tr]. split; [reflexivity|].
    apply emitted_app. cbn. now rewrite app_nil_r.
Qed.

Lemma staleness_boundary_witness :
  in_failure (exec (stale_check (mkDatetime (at_time 13 21 56) timezone_utc))
                   env_down boot) = true /\
  in_failure (exec (stale_check (mkDatetime (at_time 13 21 58) timezone_utc))
                   env_down (set_in_failure true boot)) = false.
Proof.
  split.
  - refine (proj1 (proj1 (staleness_boundary env_down boot
                            (mkDatetime (at_time 13 21 56) timezone_utc) 0 _) _)).
    + reflexivity.
    + vm_compute. reflexivity.
  - refine (proj1 (proj2 (staleness_boundary env_down (set_in_failure true boot)
                            (mkDatetime (at_time 13 21 58) timezone_utc) 0 _) _)).
    + reflexivity.
    + vm_compute. reflexivity.
Defined.


(** ** The data fetcher *)

Ltac red_fetch := red_stmt; cbn [wall_us].

Ltac use_answers :=
  repeat match goal with
         | H : net ?env ?n = _ |- context [net ?env ?n] => rewrite H; red_fetch
         | H : is_error_status ?s = _ |- context [is_error_status ?s] => rewrite H; red_fetch
         | H : subscript ?j ?k = _ |- context [subscript ?j ?k] => rewrite H; red_fetch
         end.

Lemma response_error_some r e :
  response_error r = Some e ->
  r = NetRaise e \/
  (exists status body, r = NetResponse status body /\ is_error_status status = true
                       /\ e = HTTPError (Some status)) \/
  (exists status, r = NetResponse status None /\ is_error_status status = false
                  /\ e = JSONDecodeError).
Proof.
  destruct r as [e'|status body]; cbn.
  - intros H. injection H as ->. now left.
  - destruct (is_error_status status) eqn:E.
    + intros H. injection H as <-. right. left. eauto.
    + destruct body; [discriminate|]. intros H. injection H as <-. right. right. eauto.
Qed.

Lemma not_401 (status : Z) A (x y : A) :
  HTTPError (Some status) <> HTTPError (Some 401) ->
  match status with
  | 401 => x
  | _ => y
  end = y.
Proof.
  intros H. destruct (Z.eq_dec status 401) as [->|Hz]; [congruence|].
  repeat (split_innermost; try reflexivity; try lia).
Qed.

(** A first attempt that fails otherwise than by a 401 is raised after that
    one request. *)
Lemma fetch_first_attempt_fails tok cid csec env m e :
  response_error (net env (net_calls m)) = Some e ->
  e <> HTTPError (Some 401) ->
  fetch_latest_rows tok cid csec env m
  = (inl e, count_net_call
              (add_event (EvHttpGet (request_url (clock env (clock_reads m))) tok)
                         (count_clock_read m))).
Proof.
  intros He Hne. destruct m as [tk lt inf fas nc cr tr].
  cbn [net_calls] in He.
  unfold fetch_latest_rows, request_url.
  destruct (response_error_some _ _ He)
    as [Hnet | [(status & body & Hnet & Hrej & ->) | (status & Hnet & Hrej & ->)]];
    red_fetch; use_answers; try reflexivity.
  - destruct e; try reflexivity. destruct status as [z|]; [|reflexivity].
    now rewrite not_401.
  - now rewrite not_401.
Qed.

(** A 401 on the first attempt hands over to the handler of lines 107-111. *)
Lemma fetch_refresh tok cid csec env m :
  response_error (net env (net_calls m)) = Some (HTTPError (Some 401)) ->
  fetch_latest_rows tok cid csec env m
  = (new_token <- get_token cid csec ;;
     r2 <- requests_get (request_url (clock env (clock_reads m))) new_token ;;
     raise_for_status r2 ;;
     j2 <- response_json r2 ;;
     ret (j2, new_token)) env
      (count_net_call
         (add_event (EvHttpGet (request_url (clock env (clock_reads m))) tok)
                    (count_clock_read m))).
Proof.
  intros He. destruct m as [tk lt inf fas nc cr tr].
  cbn [net_calls] in He.
  unfold fetch_latest_rows, request_url.
  destruct (response_error_some _ _ He)
    as [Hnet | [(status & body & Hnet & Hrej & Hst) | (status & Hnet & Hrej & ?)]];
    [| injection Hst as <- | discriminate];
    red_fetch; use_answers; reflexivity.
Qed.

(** C9: a 401 on the data request makes [fetch_latest_rows] get a new
    credential and repeat the same request once with it, returning the new
    credential on success; a failure of the retry, or any other failure of
    the first attempt, is raised with no further request. *)
Theorem fetch_retries_once_on_401 tok cid csec env m :
  let n := net_calls m in
  let url := request_url (clock env (clock_reads m)) in
  let run := fetch_latest_rows tok cid csec env m in
  (forall status1 j new_token,
      response_error (net env n) = Some (HTTPError (Some 401)) ->
      net env (S n) = NetResponse status1 (Some j) ->
      is_error_status status1 = false ->
      subscript j "access_token" = inr new_token ->
      (forall status2 rows,
          net env (S (S n)) = NetResponse status2 (Some rows) ->
          is_error_status status2 = false ->
          fst run = inr (rows, new_token) /\
          emitted m (snd run)
          = [EvHttpGet url tok; EvHttpPost cid csec; EvHttpGet url new_token]) /\
      (forall e,
          response_error (net env (S (S n))) = Some e ->
          fst run = inl e /\
          emitted m (snd run)
          = [EvHttpGet url tok; EvHttpPost cid csec; EvHttpGet url new_token]))
  /\
  (forall e,
      response_error (net env n) = Some e ->
      e <> HTTPError (Some 401) ->
      fst run = inl e /\ emitted m (snd run) = [EvHttpGet url tok]).
Proof.
  cbv zeta. split.
  - intros status1 j new_token H401 Htok Hok1 Hacc.
    rewrite (fetch_refresh _ _ _ _ _ H401).
    destruct m as [tk lt inf fas nc cr tr]. cbn [net_calls clock_reads] in *.
    split.
    + intros status2 rows Hretry Hok2.
      red_fetch. use_answers. split; [reflexivity|].
      apply emitted_app. cbn [trace]. now rewrite <- !app_assoc.
    + intros e He.
      destruct (response_error_some _ _ He)
        as [Hnet | [(status & body & Hnet & Hrej & ->) | (status & Hnet & Hrej & ->)]];
        red_fetch; use_answers; (split; [reflexivity|]);
        apply emitted_app; cbn [trace]; now rewrite <- !app_assoc.
  - intros e He Hne. rewrite (fetch_first_attempt_fails _ _ _ _ _ _ He Hne).
    split; [reflexivity|]. apply emitted_app. destruct m. reflexivity.
Qed.

Lemma fetch_retries_once_on_401_witness :
  let run := fetch_latest_rows (JStr "tok-1") None None env_expired boot in
  fst run = inr (JList [window_1322], JStr "tok-2") /\
  emitted boot (snd run)
  = [EvHttpGet (request_url (at_time 13 23 30)) (JStr "tok-1"); EvHttpPost None None;
     EvHttpGet (request_url (at_time 13 23 30)) (JStr "tok-2")].
Proof.
  cbv zeta.
  refine (proj1 (proj1 (fetch_retries_once_on_401 (JStr "tok-1") None None env_expired boot)
                       200 (JDict [("access_token", JStr "tok-2")]) (JStr "tok-2")
                       _ _ _ _)
                200 (JList [window_1322]) _ _).
  all: vm_compute; reflexivity.
Defined.

(** ** Timestamp normalisation *)

Lemma days_in_month_le y m : days_in_month y m <= 31.
Proof.
  unfold days_in_month.
  destruct (m =? 2); [destruct (is_leap y); lia|].
  destruct (_ || _); lia.
Qed.

Lemma days_from_civil_range y m d :
  1 <= y <= 9999 -> 1 <= m <= 12 -> 1 <= d <= 31 ->
  days_from_civil 1 1 1 <= days_from_civil y m d <= days_from_civil 9999 12 31.
Proof.
  intros Hy Hm Hd.
  change (days_from_civil 1 1 1) with (-719162).
  change (days_from_civil 9999 12 31) with 2932896.
  unfold days_from_civil.
  destruct (m <=? 2) eqn:E1; destruct (m >? 2) eqn:E2; try lia.
  all: Z.div_mod_to_equations; lia.
Qed.

Lemma make_datetime_range y m d hh mi ss us tz dt :
  make_datetime y m d hh mi ss us tz = inr dt ->
  datetime_min_us <= wall_us dt <= datetime_max_us /\ tzinfo dt = tz.
Proof.
  unfold make_datetime.
  destruct (_ && _) eqn:E; [|discriminate].
  intros H. injection H as <-. cbn [wall_us tzinfo]. split; [|reflexivity].
  repeat (apply andb_prop in E; destruct E as [E ?]).
  pose proof (days_in_month_le y m).
  assert (Hr : days_from_civil 1 1 1 <= days_from_civil y m d <= days_from_civil 9999 12 31)
    by (apply days_from_civil_range; lia).
  unfold datetime_min_us, datetime_max_us, civil_us, seconds in *. lia.
Qed.

Lemma fromisoformat_range ts dt :
  fromisoformat ts = inr dt -> datetime_min_us <= wall_us dt <= datetime_max_us.
Proof.
  unfold fromisoformat.
  destruct (parse_isoformat_date _) as [[[[y m] d] [|sep tstr]]|]; try discriminate.
  - intros H. now apply make_datetime_range in H.
  - destruct (parse_isoformat_time tstr) as [[[[[hh mi] ss] us] tz]|]; [|discriminate].
    intros H. now apply make_datetime_range in H.
Qed.

Lemma string_length_app s t :
  String.length (s ++ t) = (String.length s + String.length t)%nat.
Proof. induction s as [|c s IH]; cbn; [reflexivity | now rewrite IH]. Qed.

Lemma substring_whole s : substring 0 (String.length s) s = s.
Proof. induction s as [|c s IH]; cbn; [reflexivity | now rewrite IH]. Qed.

Lemma substring_suffix s t :
  substring (String.length s) (String.length t) (s ++ t) = t.
Proof. induction s as [|c s IH]; cbn; [apply substring_whole | exact IH]. Qed.

Lemma substring_prefix s t :
  substring 0 (String.length s) (s ++ t) = s.
Proof.
  induction s as [|c s IH]; cbn; [now destruct t | now rewrite IH].
Qed.

Lemma string_app_assoc (s t u : string) : ((s ++ t) ++ u = s ++ (t ++ u))%string.
Proof. induction s as [|c s IH]; cbn; [reflexivity | now rewrite IH]. Qed.

Lemma endswith_app s suffix : endswith (s ++ suffix) suffix = true.
Proof.
  unfold endswith. rewrite string_length_app.
  replace (String.length s + String.length suffix - String.length suffix)%nat
    with (String.length s) by lia.
  rewrite substring_suffix, String.eqb_refl, andb_true_r.
  apply Nat.leb_le. lia.
Qed.

Lemma endswith_other s c c' :
  c <> c' ->
  endswith (s ++ String c EmptyString) (String c' EmptyString) = false.
Proof.
  intros Hc. unfold endswith. rewrite string_length_app. cbn [String.length].
  replace (String.length s + 1 - 1)%nat with (String.length s) by lia.
  pose proof (substring_suffix s (String c EmptyString)) as H.
  cbn [String.length] in H. rewrite H.
  apply andb_false_iff. right. apply String.eqb_neq. congruence.
Qed.

Lemma drop_last_app s c : drop_last (s ++ String c EmptyString) = s.
Proof.
  unfold drop_last. rewrite string_length_app. cbn [String.length].
  replace (String.length s + 1 - 1)%nat with (String.length s) by lia.
  apply substring_prefix.
Qed.

Lemma iso_utc_trailing_Z s : iso_utc (s ++ "Z") = iso_utc (s ++ "+00:00").
Proof.
  unfold iso_utc.
  rewrite (endswith_app s "Z"), (drop_last_app s "Z").
  change "+00:00" with ("+00:0" ++ "0")%string.
  rewrite <- string_app_assoc.
  rewrite (endswith_other (s ++ "+00:0") "0" "Z") by discriminate.
  reflexivity.
Qed.

Lemma iso_utc_naive s d :
  endswith s "Z" = false -> fromisoformat s = inr d -> tzinfo d = None ->
  iso_utc s = inr (mkDatetime (wall_us d) timezone_utc).
Proof.
  intros Hz Hd Hnaive. unfold iso_utc. rewrite Hz, Hd. cbn [rbind]. rewrite Hnaive.
  unfold astimezone_utc, replace_tzinfo, timezone_utc. cbn [tzinfo wall_us].
  rewrite Z.sub_0_r.
  pose proof (fromisoformat_range _ _ Hd) as [Hlo Hhi].
  apply Z.leb_le in Hlo, Hhi. now rewrite Hlo, Hhi.
Qed.

(** C7: the three spellings of 2025-09-08 13:23:00 UTC normalise to the
    same instant; a trailing [Z] reads as [+00:00]; a timestamp without
    offset keeps its reading and is taken as UTC; every result is in UTC. *)
Theorem iso_utc_normalises_to_utc :
  let expected := mkDatetime (civil_us 2025 9 8 13 23 0 0) timezone_utc in
  iso_utc "2025-09-08T13:23:00Z" = inr expected /\
  iso_utc "2025-09-08T13:23:00+00:00" = inr expected /\
  iso_utc "2025-09-08T13:23:00" = inr expected /\
  (forall s, iso_utc (s ++ "Z") = iso_utc (s ++ "+00:00")) /\
  (forall s d,
      endswith s "Z" = false -> fromisoformat s = inr d -> tzinfo d = None ->
      iso_utc s = inr (mkDatetime (wall_us d) timezone_utc)) /\
  (forall s d off t,
      endswith s "Z" = false -> fromisoformat s = inr d -> tzinfo d = Some off ->
      iso_utc s = inr t -> t = mkDatetime (wall_us d - off) timezone_utc) /\
  (forall s t, iso_utc s = inr t -> tzinfo t = timezone_utc).
Proof.
  cbv zeta.
  split; [vm_compute; reflexivity|].
  split; [vm_compute; reflexivity|].
  split; [vm_compute; reflexivity|].
  split; [exact iso_utc_trailing_Z|].
  split; [exact iso_utc_naive|].
  split; [|exact iso_utc_aware].
  intros s d off t Hz Hd Hoff. unfold iso_utc. rewrite Hz, Hd. cbn [rbind].
  rewrite Hoff. unfold astimezone_utc. rewrite Hoff.
  destruct (_ && _); [|discriminate]. intros H. now injection H as <-.
Qed.


Lemma iso_utc_normalises_to_utc_witness :
  iso_utc "2025-09-08T13:23:00"
  = inr (mkDatetime (civil_us 2025 9 8 13 23 0 0) timezone_utc).
Proof.
  refine (proj1 (proj2 (proj2 (proj2 (proj2 iso_utc_normalises_to_utc))))
                "2025-09-08T13:23:00"
                (mkDatetime (civil_us 2025 9 8 13 23 0 0) None) _ _ _).
  all: vm_compute; reflexivity.
Defined.

(** ** Labels *)

Lemma value_map_samples :
  value_map_item (JStr "RED_POS") = inr 3 /\
  value_map_item (JStr "GREEN_NEG") = inr (-1) /\
  value_map_contains (JStr "PURPLE") = inr false /\
  List.length VALUE_MAP = 7%nat.
Proof. repeat split. Qed.

(** In the loop a label outside the table is its own failure case: nothing
    is applied, the turn ends in failure, and the reason given (unless the
    loop is in failure already) is the unknown value. *)
Lemma poll_cycle_unknown_label cid csec env m rows tok' m1 latest val :
  fetch_latest_rows (token m) cid csec env m = (inr (rows, tok'), m1) ->
  truthy rows = true ->
  subscript_last rows = inr latest ->
  dict_get latest "Value" = inr val ->
  value_map_contains val = inr false ->
  let m' := exec (poll_cycle cid csec) env m in
  in_failure m' = true /\ last_to m' = last_to m /\
  emitted m1 m'
  = (if in_failure m then []
     else [EvLogError (UnknownValue val); EvLedErrorBlink; EvBuzzerError])
    ++ [EvSleep POLL_INTERVAL_MS].
Proof.
  intros Hfetch Htruthy Hlast Hval Hknown. cbv zeta.
  destruct (fetch_latest_rows_frame _ _ _ _ _ _ _ Hfetch)
    as ((Hl1 & Hl2 & Hl3 & Hl4) & _).
  destruct m as [tk lt inf fas nc cr tr], m1 as [tk1 lt1 inf1 fas1 nc1 cr1 tr1].
  cbn [token last_to in_failure first_after_start clock_reads trace] in *.
  subst tk1 lt1 inf1 fas1.
  unfold poll_cycle. red_stmt. rewrite Hfetch. red_stmt.
  rewrite Htruthy. red_stmt. rewrite Hlast. red_stmt. rewrite Hval. red_stmt.
  rewrite Hknown. red_stmt.
  destruct inf; red_stmt; (split; [reflexivity|]); (split; [reflexivity|]);
    apply emitted_app; cbn [trace]; now rewrite <- ?app_assoc.
Qed.

(** ** The startup probe and an unknown label *)

Lemma apply_state_unknown lbl env m :
  dict_lookup lbl VALUE_MAP = None ->
  apply_state (JStr lbl) env m = (inl (KeyError (JStr lbl)), m).
Proof.
  intros H. unfold apply_state, bind, lift, value_map_item. now rewrite H.
Qed.

(** C10: at the startup probe, a fresh latest row whose label is outside
    the table first gets the self-test pass; then [apply_state] raises the
    [KeyError] of the lookup, and the handler gives the self-test fail and
    enters failure mode with the generic startup-error reason.  Nothing is
    applied. *)
Theorem startup_unknown_label_passes_then_fails
        cid csec env m rows tok' m1 latest to t lbl :
  fetch_latest_rows (token m) cid csec env m = (inr (rows, tok'), m1) ->
  truthy rows = true ->
  subscript_last rows = inr latest ->
  subscript latest "To" = inr to ->
  iso_utc_call to = inr t ->
  clock env (clock_reads m1) - instant t <= STALE_AFTER ->
  subscript latest "Value" = inr (JStr lbl) ->
  dict_lookup lbl VALUE_MAP = None ->
  let m' := exec (startup_probe cid csec) env m in
  (forall env' mx, apply_state (JStr lbl) env' mx = (inl (KeyError (JStr lbl)), mx)) /\
  emitted m1 m'
  = [EvSelfTestSuccess; EvSelfTestFail;
     EvLogError (StartupError (KeyError (JStr lbl))); EvLedErrorBlink; EvBuzzerError] /\
  in_failure m' = true /\ last_to m' = last_to m /\
  count is_render (emitted m m') = 0%nat.
Proof.
  intros Hfetch Htruthy Hlast Hto Hiso Hfresh Hval Hlbl. cbv zeta.
  split; [intros; now apply apply_state_unknown|].
  pose proof (iso_utc_call_aware _ _ Hiso) as Ht.
  destruct (fetch_latest_rows_frame _ _ _ _ _ _ _ Hfetch)
    as ((Hl1 & Hl2 & Hl3 & Hl4) & Hcr & fevs & Htr & Hhttp).
  destruct m as [tk lt inf fas nc cr tr], m1 as [tk1 lt1 inf1 fas1 nc1 cr1 tr1].
  cbn [token last_to in_failure first_after_start clock_reads trace] in *.
  subst tk1 lt1 inf1 fas1 cr1 tr1.
  unfold startup_probe. red_stmt. rewrite Hfetch. red_stmt.
  rewrite Htruthy. red_stmt. rewrite Hlast. red_stmt. rewrite Hto. red_stmt.
  rewrite Hiso. red_stmt. rewrite (dt_sub_now _ _ Ht). red_stmt.
  assert (Hage : (clock env (S cr) - instant t >? STALE_AFTER) = false)
    by (rewrite Z.gtb_ltb; apply Z.ltb_ge; exact Hfresh).
  rewrite Hage. red_stmt. rewrite Hval. red_stmt.
  rewrite (apply_state_unknown lbl _ _ Hlbl). red_stmt.
  split; [apply emitted_app; cbn [trace]; now rewrite <- !app_assoc|].
  split; [reflexivity|]. split; [reflexivity|].
  erewrite emitted_app by (cbn [trace]; rewrite <- !app_assoc; reflexivity).
  count_simpl. reflexivity.
Qed.

Lemma startup_unknown_label_passes_then_fails_witness :
  let m := mkMachine (JStr "tok-1") None false true 1 0
                     [EvHttpPost None None; EvSelfTestStart] in
  let m1 := snd (fetch_latest_rows (JStr "tok-1") None None env_purple m) in
  let m' := exec (startup_probe None None) env_purple m in
  emitted m1 m'
  = [EvSelfTestSuccess; EvSelfTestFail;
     EvLogError (StartupError (KeyError (JStr "PURPLE"))); EvLedErrorBlink; EvBuzzerError] /\
  in_failure m' = true.
Proof.
  cbv zeta.
  destruct (startup_unknown_label_passes_then_fails
              None None env_purple
              (mkMachine (JStr "tok-1") None false true 1 0
                         [EvHttpPost None None; EvSelfTestStart])
              (JList [row "2025-09-08T13:22:00Z" "2025-09-08T13:23:00Z" "PURPLE"])
              (JStr "tok-1")
              (snd (fetch_latest_rows (JStr "tok-1") None None env_purple
                      (mkMachine (JStr "tok-1") None false true 1 0
                                 [EvHttpPost None None; EvSelfTestStart])))
              (row "2025-09-08T13:22:00Z" "2025-09-08T13:23:00Z" "PURPLE")
              (JStr "2025-09-08T13:23:00Z")
              (mkDatetime (at_time 13 23 0) timezone_utc) "PURPLE"
              eq_refl eq_refl eq_refl eq_refl eq_refl
              ltac:(vm_compute; discriminate) eq_refl eq_refl)
    as (_ & Hevs & Hfail & _).
  split; assumption.
Defined.

(** C8, at the startup probe: a fresh row labelled PURPLE is not reported
    as an unknown value there.  The self-test passes, [apply_state] raises
    on the lookup, and the failure is signalled as a generic startup
    error. *)
Theorem startup_probe_reports_purple_as_startup_error :
  trace (exec (main None None 0) env_purple boot)
  = [EvHttpPost None None; EvSelfTestStart;
     EvHttpGet (request_url (at_time 13 23 30)) (JStr "tok-1");
     EvSelfTestSuccess; EvSelfTestFail;
     EvLogError (StartupError (KeyError (JStr "PURPLE")));
     EvLedErrorBlink; EvBuzzerError].
Proof. vm_compute. reflexivity. Qed.

(** * Further properties of the code *)

(** ** Counting anything but requests *)

Lemma count_hold_events p :
  (forall sec, p (EvCountdown sec) = false) -> p EvClearLine = false ->
  count p hold_events = if p (EvSleep 1000) then 55%nat else 0%nat.
Proof.
  intros Hc Hl. unfold hold_events. rewrite count_app, count_cons, Hl.
  change 55%nat with (List.length (countdown 55)) at 2.
  induction (countdown 55) as [|sec l IH]; cbn [flat_map List.length].
  - now destruct (p (EvSleep 1000)).
  - rewrite count_app, !count_cons, Hc. cbn [count filter List.length] in *.
    destruct (p (EvSleep 1000)); lia.
Qed.

Ltac count_any :=
  rewrite ?count_app;
  repeat match goal with
         | |- context [count ?p hold_events] =>
             rewrite (count_hold_events p) by (intros; reflexivity)
         | H : forallb is_http ?evs = true |- context [count ?p ?evs] =>
             rewrite (count_http p evs)
               by (assumption || (intros []; (reflexivity || discriminate)))
         end;
  cbn.

(** ** Exceptions never leave the loop *)

(** X1: a turn of the loop returns normally whatever the network and the
    clock answer, and so do any number of turns; [main] can only raise where
    its first [get_token] (line 120) raises. *)
Theorem only_the_first_get_token_can_stop_main cid csec env m n :
  result (poll_cycle cid csec) env m = inr tt /\
  result (loop cid csec n) env m = inr tt /\
  result (main cid csec n) env m
  = match result (get_token cid csec) env m with
    | inl e => inl e
    | inr _ => inr tt
    end.
Proof.
  split; [|split].
  - unfold result. now destruct (poll_cycle_facts cid csec env m) as (-> & _).
  - unfold result. now rewrite loop_run.
  - unfold result, main, bind.
    destruct (get_token cid csec env m) as [[e|tok] m1]; [reflexivity|].
    cbn [fst]. unfold main_from. destruct m1 as [tk lt inf fas nc cr tr]. red_stmt.
    match goal with
    | |- context [startup_probe cid csec env ?mx] =>
        destruct (startup_probe_facts cid csec env mx) as (-> & _)
    end.
    red_stmt. now rewrite loop_run.
Qed.

(** ** The startup probe *)

(** X2: the startup probe never raises; it gives the failure signal and the
    self-test fail exactly once each when it ends in failure and not at all
    otherwise; when it ends healthy it has given the self-test pass and one
    render and has set [last_to]; it never counts down and leaves
    [first_after_start] alone. *)
Theorem startup_probe_signals cid csec env m :
  let m' := exec (startup_probe cid csec) env m in
  let evs := emitted m m' in
  result (startup_probe cid csec) env m = inr tt /\
  count is_failure_signal evs = (if in_failure m' then 1 else 0)%nat /\
  count is_self_test_fail evs = (if in_failure m' then 1 else 0)%nat /\
  (count is_self_test_success evs <= 1)%nat /\
  (in_failure m' = false ->
   count is_self_test_success evs = 1%nat /\ count is_render evs = 1%nat /\
   exists t, last_to m' = Some t) /\
  count is_hold_sleep evs = 0%nat /\
  first_after_start m' = first_after_start m.
Proof.
  cbv zeta. destruct m as [tk lt inf fas nc cr tr].
  unfold startup_probe; run_cycle.
  all: split; [reflexivity|].
  all: erewrite emitted_app by (cbn [trace]; repeat rewrite <- app_assoc; reflexivity).
  all: repeat split; count_any; try lia; try discriminate; eauto.
Qed.

(** ** The shape of a turn *)

(** X3: in any turn the error log line, the blinking and the error tone
    come together, once each exactly when the turn takes [in_failure] from
    false to true, and not at all otherwise. *)
Theorem failure_is_signalled_on_entry_only cid csec env m :
  let m' := exec (poll_cycle cid csec) env m in
  let evs := emitted m m' in
  let entered := if negb (in_failure m) && in_failure m' then 1%nat else 0%nat in
  count is_log_error evs = entered /\
  count is_failure_signal evs = entered /\
  count is_buzzer_error evs = entered.
Proof.
  cbv zeta. destruct m as [tk lt [|] fas nc cr tr].
  all: unfold poll_cycle; run_cycle.
  all: erewrite emitted_app by (cbn [trace]; repeat rewrite <- app_assoc; reflexivity).
  all: repeat split; count_any; reflexivity.
Qed.

Lemma fetch_first_request tok cid csec env m r m1 :
  fetch_latest_rows tok cid csec env m = (r, m1) ->
  exists rest,
    trace m1 = trace m ++ EvHttpGet (request_url (clock env (clock_reads m))) tok :: rest.
Proof.
  destruct m as [tk lt inf fas nc cr tr].
  unfold fetch_latest_rows, request_url. run_stmt.
  all: intros H; inversion H; subst; clear H; red_stmt; cbn [wall_us].
  all: eexists; repeat rewrite <- app_assoc; reflexivity.
Qed.

Lemma request_first_sleep_last (tr : list event) g mid s :
  (tr ++ g :: mid) ++ [s] = tr ++ g :: mid ++ [s].
Proof. now rewrite <- app_assoc. Qed.

(** X4: every turn begins with the data request, made with the credential
    the loop holds, and ends with the one poll sleep of the turn; the
    credential it holds afterwards is the one the fetch returned, or the old
    one if the fetch raised. *)
Theorem turn_requests_first_and_sleeps_last cid csec env m :
  let m' := exec (poll_cycle cid csec) env m in
  (exists mid,
      emitted m m'
      = EvHttpGet (request_url (clock env (clock_reads m))) (token m) :: mid
        ++ [EvSleep POLL_INTERVAL_MS]) /\
  count is_poll_sleep (emitted m m') = 1%nat /\
  token m'
  = match result (fetch_latest_rows (token m) cid csec) env m with
    | inr (_, tok') => tok'
    | inl _ => token m
    end.
Proof.
  cbv zeta. destruct m as [tk lt [|] fas nc cr tr].
  all: unfold poll_cycle; run_cycle.
  all: destruct (fetch_first_request _ _ _ _ _ _ _ Hfetch) as (rest & Hrest);
    cbn [trace clock_reads] in Hrest; apply app_inv_head in Hrest; subst fevs.
  all: cbn [forallb is_http andb] in Hhttp.
  all: split; [|split; [|reflexivity]].
  all: try (eexists; apply emitted_app; cbn [trace];
            (etransitivity; [|apply request_first_sleep_last]);
            apply (f_equal (fun l => l ++ [EvSleep POLL_INTERVAL_MS]));
            repeat rewrite <- app_assoc; repeat rewrite <- app_comm_cons;
            reflexivity).
  all: erewrite emitted_app by (cbn [trace]; repeat rewrite <- app_assoc; reflexivity).
  all: rewrite count_app, count_cons; count_any; reflexivity.
Qed.

(** X22: a turn of the loop gives no self-test signal of any kind, renders
    at most once, and either does not count down or counts down the full 55
    seconds. *)
Theorem turn_never_self_tests cid csec env m :
  let evs := emitted m (exec (poll_cycle cid csec) env m) in
  count is_self_test_start evs = 0%nat /\
  count is_self_test_success evs = 0%nat /\
  count is_self_test_fail evs = 0%nat /\
  (count is_render evs <= 1)%nat /\
  (count is_hold_sleep evs = 0%nat \/ count is_hold_sleep evs = 55%nat).
Proof.
  cbv zeta. destruct m as [tk lt inf [|] nc cr tr].
  all: unfold poll_cycle; run_cycle.
  all: erewrite emitted_app by (cbn [trace]; repeat rewrite <- app_assoc; reflexivity).
  all: repeat split; count_any; try reflexivity; try lia.
Qed.

(** ** The turns that fail *)

(** Bring a turn to the point after its fetch. *)
Ltac after_fetch Hfetch :=
  let Hl1 := fresh in let Hl2 := fresh in let Hl3 := fresh in let Hl4 := fresh in
  destruct (fetch_latest_rows_frame _ _ _ _ _ _ _ Hfetch)
    as ((Hl1 & Hl2 & Hl3 & Hl4) & _);
  match type of Hfetch with
  | fetch_latest_rows _ _ _ _ ?m = (_, ?m1) =>
      destruct m as [tk lt inf fas nc cr tr];
      destruct m1 as [tk1 lt1 inf1 fas1 nc1 cr1 tr1]
  end;
  cbn [token last_to in_failure first_after_start clock_reads trace] in *;
  subst;
  unfold poll_cycle; red_stmt; rewrite Hfetch; red_stmt.

Ltac follow H := rewrite H; red_stmt.

Ltac close_turn :=
  try match goal with
      | |- context [failure_entry ?b] => destruct b
      end;
  red_stmt; unfold failure_entry;
  repeat split; try reflexivity;
  apply emitted_app; cbn [trace]; now rewrite <- ?app_assoc.

(** X5: a turn whose fetch raises enters failure with the exception as
    reason (signalled unless already in failure), applies nothing, keeps
    the credential, and sleeps the poll interval. *)
Theorem fetch_error_turn cid csec env m e m1 :
  fetch_latest_rows (token m) cid csec env m = (inl e, m1) ->
  let m' := exec (poll_cycle cid csec) env m in
  emitted m1 m' = failure_entry (in_failure m) (LoopError e) ++ [EvSleep POLL_INTERVAL_MS] /\
  in_failure m' = true /\ last_to m' = last_to m /\
  first_after_start m' = first_after_start m /\ token m' = token m.
Proof.
  intros Hfetch. cbv zeta. after_fetch Hfetch.
  close_turn.
Qed.

(** X6: a turn whose fetch returns nothing (an empty list, or any falsy
    JSON value) enters failure with the reason "empty response" and applies
    nothing; the credential returned by the fetch is kept. *)
Theorem empty_response_turn cid csec env m rows tok' m1 :
  fetch_latest_rows (token m) cid csec env m = (inr (rows, tok'), m1) ->
  truthy rows = false ->
  let m' := exec (poll_cycle cid csec) env m in
  emitted m1 m' = failure_entry (in_failure m) EmptyResponse ++ [EvSleep POLL_INTERVAL_MS] /\
  in_failure m' = true /\ last_to m' = last_to m /\
  first_after_start m' = first_after_start m /\ token m' = tok'.
Proof.
  intros Hfetch Hrows. cbv zeta. after_fetch Hfetch. follow Hrows.
  close_turn.
Qed.

(** X7: a turn whose latest row carries a value that is not a key of the
    table (another string, a missing [Value], a number) enters failure with
    the reason "unknown value: ..." and applies nothing, whatever the row's
    timestamps are. *)
Theorem unknown_value_turn cid csec env m rows tok' m1 latest val :
  fetch_latest_rows (token m) cid csec env m = (inr (rows, tok'), m1) ->
  truthy rows = true ->
  subscript_last rows = inr latest ->
  dict_get latest "Value" = inr val ->
  value_map_contains val = inr false ->
  let m' := exec (poll_cycle cid csec) env m in
  emitted m1 m'
  = failure_entry (in_failure m) (UnknownValue val) ++ [EvSleep POLL_INTERVAL_MS] /\
  in_failure m' = true /\ last_to m' = last_to m /\
  first_after_start m' = first_after_start m /\ token m' = tok'.
Proof.
  intros Hfetch Hrows Hlast Hval Hknown. cbv zeta. after_fetch Hfetch.
  follow Hrows. follow Hlast. follow Hval. follow Hknown.
  close_turn.
Qed.

(** X8: a turn whose latest row cannot be read (it is not a dictionary, its
    value cannot be hashed, its [To] is missing or is not a timestamp)
    enters failure with the exception as reason and applies nothing. *)
Theorem unreadable_row_turn cid csec env m rows tok' m1 e :
  fetch_latest_rows (token m) cid csec env m = (inr (rows, tok'), m1) ->
  truthy rows = true ->
  (subscript_last rows = inl e \/
   exists latest,
     subscript_last rows = inr latest /\
     (dict_get latest "Value" = inl e \/
      exists val,
        dict_get latest "Value" = inr val /\
        (value_map_contains val = inl e \/
         (value_map_contains val = inr true /\
          (subscript latest "To" = inl e \/
           exists to, subscript latest "To" = inr to /\ iso_utc_call to = inl e))))) ->
  let m' := exec (poll_cycle cid csec) env m in
  emitted m1 m' = failure_entry (in_failure m) (LoopError e) ++ [EvSleep POLL_INTERVAL_MS] /\
  in_failure m' = true /\ last_to m' = last_to m /\
  first_after_start m' = first_after_start m /\ token m' = tok'.
Proof.
  intros Hfetch Hrows Hbad. cbv zeta. after_fetch Hfetch. follow Hrows.
  destruct Hbad as [H | (latest & Hlast & Hbad)]; [follow H; close_turn|].
  follow Hlast.
  destruct Hbad as [H | (val & Hval & Hbad)]; [follow H; close_turn|].
  follow Hval.
  destruct Hbad as [H | (Hknown & Hbad)]; [follow H; close_turn|].
  follow Hknown.
  destruct Hbad as [H | (to & Hto & H)]; [follow H; close_turn|].
  follow Hto. follow H. close_turn.
Qed.

(** ** Rendering *)

Lemma value_map_item_contains val v :
  value_map_item val = inr v -> value_map_contains val = inr true.
Proof.
  unfold value_map_item, value_map_contains.
  destruct val; try discriminate. now destruct (dict_lookup s VALUE_MAP).
Qed.

Lemma apply_state_known val v env m :
  value_map_item val = inr v ->
  apply_state val env m = (inr tt, add_event (EvLedOk (bucket v)) m).
Proof.
  intros Hv. unfold apply_state, bind, lift. rewrite Hv.
  destruct (value_map_item_range _ _ Hv) as [->|[->|[->|[->|[->|[->| ->]]]]]];
    reflexivity.
Qed.

(** X9: [apply_state] succeeds exactly on the keys of the table.  On a key
    it makes one [led_ok] call with the colour of the magnitude, the sign
    being ignored, and nothing else; on anything else it raises before
    touching the outside. *)
Theorem apply_state_renders_known_labels val env m :
  (forall v, value_map_item val = inr v ->
             value_map_contains val = inr true /\
             apply_state val env m = (inr tt, add_event (EvLedOk (bucket v)) m)) /\
  (forall e, value_map_item val = inl e ->
             value_map_contains val <> inr true /\
             apply_state val env m = (inl e, m)).
Proof.
  split.
  - intros v Hv. split; [exact (value_map_item_contains _ _ Hv)|].
    now apply apply_state_known.
  - intros e He. split.
    + unfold value_map_item, value_map_contains in *.
      destruct val; try discriminate. now destruct (dict_lookup s VALUE_MAP).
    + unfold apply_state, bind, lift. now rewrite He.
Qed.

(** ** The turns that reach the stale check *)

(** X10: a turn that finds a known label on a row newer than [last_to]
    (or the first row ever) records the end of the row in [last_to] and
    renders its colour.  If the log line can then be written (the row's
    [From] parses), the turn writes it, counts down unless
    [first_after_start] was set, clears that flag, and only then checks
    staleness: a newer row that is already stale is shown before failure is
    signalled.  If the log line cannot be written, the turn enters failure
    with that exception as reason, with no countdown and no stale check, and
    [first_after_start] is kept. *)
Theorem new_window_turn cid csec env m rows tok' m1 latest val v to t :
  fetch_latest_rows (token m) cid csec env m = (inr (rows, tok'), m1) ->
  truthy rows = true ->
  subscript_last rows = inr latest ->
  dict_get latest "Value" = inr val ->
  value_map_item val = inr v ->
  subscript latest "To" = inr to ->
  iso_utc_call to = inr t ->
  newer_than (last_to m) t ->
  let m' := exec (poll_cycle cid csec) env m in
  let age := clock env (clock_reads m1) - instant t in
  last_to m' = Some t /\ token m' = tok' /\
  (forall f_loc t_loc,
      window_text latest t = inr (f_loc, t_loc) ->
      emitted m1 m'
      = [EvLedOk (bucket v); EvLogInfo false f_loc t_loc v]
        ++ (if first_after_start m then [] else hold_events)
        ++ stale_events (in_failure m) age
        ++ [EvSleep POLL_INTERVAL_MS] /\
      first_after_start m' = false /\
      in_failure m' = (age >? STALE_AFTER)) /\
  (forall e,
      window_text latest t = inl e ->
      emitted m1 m'
      = [EvLedOk (bucket v)] ++ failure_entry (in_failure m) (LoopError e)
        ++ [EvSleep POLL_INTERVAL_MS] /\
      first_after_start m' = first_after_start m /\
      in_failure m' = true).
Proof.
  intros Hfetch Hrows Hlast Hval Hv Hto Hiso Hnew. cbv zeta.
  pose proof (iso_utc_call_aware _ _ Hiso) as Ht.
  pose proof (value_map_item_contains _ _ Hv) as Hknown.
  after_fetch Hfetch.
  follow Hrows. follow Hlast. follow Hval. follow Hknown. follow Hto. follow Hiso.
  match type of Hnew with
  | newer_than ?l _ => destruct l as [p|]
  end; cbn [newer_than] in Hnew; red_stmt; [follow Hnew|].
  all: rewrite (apply_state_known _ _ _ _ Hv); red_stmt.
  all: destruct (window_text latest t) as [e|[f_loc t_loc]] eqn:Hlog; red_stmt.
  all: try (split; [|split; [|split]];
            [ destruct inf; reflexivity | destruct inf; reflexivity
            | intros ? ? Hw; discriminate Hw
            | intros e' He; injection He as <-; close_turn ]).
  all: follow Hv; unfold stale_events.
  all: match goal with
       | |- context [if ?b then [] else hold_events] => destruct b
       end; red_stmt; rewrite ?settle_hold_run; red_stmt;
    rewrite (dt_sub_now _ _ Ht); red_stmt;
    destruct (_ >? STALE_AFTER) eqn:Hage; red_stmt.
  all: split; [|split; [|split]];
    [ try destruct inf; reflexivity | try destruct inf; reflexivity
    | intros f' t' Hw; injection Hw as <- <-; close_turn
    | intros e' He; discriminate He ].
Qed.

(** X11: a turn that finds a known label on a row that is not newer than
    [last_to] does nothing but the stale check: when the feed stops moving,
    the window already shown goes stale and failure is signalled without
    any render; its [From] is never read. *)
Theorem old_window_turn cid csec env m rows tok' m1 latest val to t p :
  fetch_latest_rows (token m) cid csec env m = (inr (rows, tok'), m1) ->
  truthy rows = true ->
  subscript_last rows = inr latest ->
  dict_get latest "Value" = inr val ->
  value_map_contains val = inr true ->
  subscript latest "To" = inr to ->
  iso_utc_call to = inr t ->
  last_to m = Some p ->
  dt_gt t p = inr false ->
  let m' := exec (poll_cycle cid csec) env m in
  let age := clock env (clock_reads m1) - instant t in
  emitted m1 m' = stale_events (in_failure m) age ++ [EvSleep POLL_INTERVAL_MS] /\
  last_to m' = Some p /\ first_after_start m' = first_after_start m /\
  in_failure m' = (age >? STALE_AFTER) /\ token m' = tok'.
Proof.
  intros Hfetch Hrows Hlast Hval Hknown Hto Hiso Hprev Hold. cbv zeta.
  pose proof (iso_utc_call_aware _ _ Hiso) as Ht.
  after_fetch Hfetch.
  follow Hrows. follow Hlast. follow Hval. follow Hknown. follow Hto. follow Hiso.
  follow Hold. unfold stale_events.
  rewrite (dt_sub_now _ _ Ht); red_stmt.
  destruct (_ >? STALE_AFTER); red_stmt; close_turn.
Qed.

(** X12: [in_failure] is cleared by nothing but the stale check of a turn
    whose fetch returned rows with a known label on the latest one and an
    end no older than the threshold. *)
Theorem failure_cleared_only_by_fresh_known_row cid csec env m :
  in_failure (exec (poll_cycle cid csec) env m) = false ->
  exists rows tok' m1 latest val to t,
    fetch_latest_rows (token m) cid csec env m = (inr (rows, tok'), m1) /\
    truthy rows = true /\
    subscript_last rows = inr latest /\
    dict_get latest "Value" = inr val /\
    value_map_contains val = inr true /\
    subscript latest "To" = inr to /\
    iso_utc_call to = inr t /\
    clock env (clock_reads m1) - instant t <= STALE_AFTER.
Proof.
  destruct m as [tk lt [|] fas nc cr tr].
  all: unfold poll_cycle; run_cycle.
  all: try discriminate.
  all: intros _; do 7 eexists.
  all: split; [reflexivity|].
  all: do 6 (split; [eassumption|]).
  all: cbn [clock_reads].
  all: match goal with
       | Hiso : iso_utc_call _ = inr ?t, Hsub : dt_sub _ ?t = inr ?z,
         Hage : (?z >? STALE_AFTER) = false |- _ =>
           rewrite (dt_sub_now _ _ (iso_utc_call_aware _ _ Hiso)) in Hsub;
           injection Hsub as <-;
           rewrite Z.gtb_ltb in Hage; apply Z.ltb_ge in Hage; exact Hage
       end.
Qed.

(** ** What holds all along a run *)

Lemma iso_utc_call_range v t :
  iso_utc_call v = inr t -> datetime_min_us <= wall_us t <= datetime_max_us.
Proof.
  destruct v; try discriminate. cbn [iso_utc_call]. unfold iso_utc, rbind.
  destruct (fromisoformat _) as [|d]; [discriminate|].
  unfold astimezone_utc. destruct (tzinfo _) as [off|]; [|discriminate].
  destruct (_ && _) eqn:E; [|discriminate].
  intros H. injection H as <-. cbn [wall_us].
  apply andb_prop in E. destruct E as [E1 E2]. apply Z.leb_le in E1, E2. lia.
Qed.

Lemma after_cycles_last_to_parsed cid csec env k m :
  (forall p, last_to m = Some p -> exists v, iso_utc_call v = inr p) ->
  forall p, last_to (after_cycles cid csec env k m) = Some p ->
            exists v, iso_utc_call v = inr p.
Proof.
  intros Hm. induction k as [|k IH]; [exact Hm|].
  cbn [after_cycles]. intros p Hp.
  destruct (poll_cycle_facts cid csec env (after_cycles cid csec env k m))
    as (_ & evs & _ & _ & [H | H]).
  - destruct H as (Hlt & _). rewrite Hlt in Hp. now apply IH.
  - destruct H as (rows & tok' & m1 & latest & to & t & _ & _ & _ & Hiso & Hlt & _).
    rewrite Hlt in Hp. injection Hp as <-. eauto.
Qed.

Lemma started_last_to_parsed tok cid csec env m0 p :
  last_to (started tok cid csec env m0) = Some p -> exists v, iso_utc_call v = inr p.
Proof.
  unfold started, main_from, exec. cbn [loop].
  destruct m0 as [tk lt inf fas nc cr tr]. red_stmt.
  match goal with
  | |- context [startup_probe cid csec env ?m] =>
      destruct (startup_probe_facts cid csec env m) as (Hrun & _ & Hlt & _)
  end.
  cbn [last_to] in Hlt. rewrite Hrun.
  match goal with
  | |- context [exec (startup_probe cid csec) env ?m] =>
      generalize dependent (exec (startup_probe cid csec) env m); intros m'; intros
  end.
  red_stmt. destruct m' as [tk' lt' inf' fas' nc' cr' tr']. cbn [last_to] in *.
  destruct Hlt as [Hnone | (v & t & Hiso & Hsome)]; [congruence|].
  exists v. congruence.
Qed.

(** X13: in every run, whatever [last_to] holds came out of [iso_utc]: it
    is an aware UTC value between [datetime.min] and [datetime.max], so the
    comparison of line 164 never raises a [TypeError] and yields the order
    of the two instants. *)
Theorem last_to_is_always_comparable tok cid csec env m0 k p :
  last_to (after_cycles cid csec env k (started tok cid csec env m0)) = Some p ->
  (exists v, iso_utc_call v = inr p) /\
  tzinfo p = timezone_utc /\
  datetime_min_us <= wall_us p <= datetime_max_us /\
  (forall v t, iso_utc_call v = inr t -> dt_gt t p = inr (wall_us t >? wall_us p)).
Proof.
  intros Hp.
  destruct (after_cycles_last_to_parsed cid csec env k _
              (started_last_to_parsed tok cid csec env m0) p Hp) as (v & Hv).
  pose proof (iso_utc_call_aware _ _ Hv) as Htz.
  split; [eauto|]. split; [exact Htz|]. split; [exact (iso_utc_call_range _ _ Hv)|].
  intros v' t Ht. unfold dt_gt.
  rewrite (iso_utc_call_aware _ _ Ht), Htz. cbn. now rewrite !Z.sub_0_r.
Qed.

(** X14: [first_after_start] is never set again: once a turn has cleared
    it, it stays cleared for the rest of the loop, from any machine. *)
Theorem first_after_start_stays_cleared cid csec env m j k :
  (j <= k)%nat ->
  first_after_start (after_cycles cid csec env j m) = false ->
  first_after_start (after_cycles cid csec env k m) = false.
Proof.
  intros Hjk Hj. induction Hjk as [|k Hjk IH]; [exact Hj|].
  cbn [after_cycles].
  destruct (poll_cycle_hold cid csec env (after_cycles cid csec env k m))
    as [(_ & _ & Hf) | (_ & _ & Hf & _)]; rewrite Hf; [exact IH | reflexivity].
Qed.

(** ** Credentials and requests *)

(** X15: [get_token] makes exactly one request, the POST of the two
    secrets; it returns the [access_token] field of a JSON dictionary that
    came with an accepted status, and raises in every other case: the
    error of the request, a [KeyError] when the field is missing, a
    [TypeError] when the body is not a dictionary. *)
Theorem get_token_posts_once cid csec env m :
  let run := get_token cid csec env m in
  emitted m (snd run) = [EvHttpPost cid csec] /\
  net_calls (snd run) = S (net_calls m) /\
  same_locals m (snd run) /\
  (forall tok, fst run = inr tok ->
               exists status d,
                 net env (net_calls m) = NetResponse status (Some (JDict d)) /\
                 is_error_status status = false /\
                 dict_lookup "access_token" d = Some tok) /\
  (forall e, response_error (net env (net_calls m)) = Some e -> fst run = inl e) /\
  (forall status d,
      net env (net_calls m) = NetResponse status (Some (JDict d)) ->
      is_error_status status = false ->
      dict_lookup "access_token" d = None ->
      fst run = inl (KeyError (JStr "access_token"))).
Proof.
  cbv zeta. destruct m as [tk lt inf fas nc cr tr]. unfold same_locals, response_error.
  red_stmt. cbn [net_calls].
  destruct (net env nc) as [e|status [j|]]; red_stmt;
    [| destruct (is_error_status status) eqn:Hst; red_stmt;
       [| unfold subscript; destruct j as [| | | | |d];
          try destruct (dict_lookup "access_token" d) eqn:Hd ]
     | destruct (is_error_status status) eqn:Hst; red_stmt ].
  all: split; [apply emitted_app; reflexivity|].
  all: split; [reflexivity|].
  all: split; [tauto|].
  all: split; [intros tok H; try discriminate H|].
  all: try (injection H as <-; do 2 eexists; repeat split; eassumption).
  all: split; [intros e' He; try discriminate He; try (injection He as <-; reflexivity)|].
  all: intros status' d' Hnet Hok Hmiss; try discriminate Hnet; congruence.
Qed.

(** X16: whatever the answers, [fetch_latest_rows] reads the clock once,
    makes one, two or three requests and nothing else, and leaves the
    locals of [main] alone; every data request it makes asks for the ten
    minutes that end at the start of the current minute. *)
Theorem fetch_makes_bounded_requests tok cid csec env m :
  let m1 := snd (fetch_latest_rows tok cid csec env m) in
  let now := clock env (clock_reads m) in
  clock_reads m1 = S (clock_reads m) /\
  (1 <= net_calls m1 - net_calls m <= 3)%nat /\
  List.length (emitted m m1) = (net_calls m1 - net_calls m)%nat /\
  forallb is_http (emitted m m1) = true /\
  same_locals m m1 /\
  (forall url bearer,
      In (EvHttpGet url bearer) (emitted m m1) ->
      to_utc url mod minutes 1 = 0 /\
      to_utc url <= now < to_utc url + minutes 1 /\
      from_utc url = to_utc url - minutes 10).
Proof.
  cbv zeta. destruct m as [tk lt inf fas nc cr tr].
  assert (Hwin : forall now,
             (now - now mod minutes 1) mod minutes 1 = 0 /\
             now - now mod minutes 1 <= now < now - now mod minutes 1 + minutes 1 /\
             now - now mod minutes 1 - minutes 10 = now - now mod minutes 1 - minutes 10).
  { intros now. change (minutes 1) with 60000000.
    pose proof (Z.mod_pos_bound now 60000000 ltac:(lia)).
    repeat split; try lia.
    rewrite Zminus_mod, Zmod_mod, Z.sub_diag. reflexivity. }
  unfold fetch_latest_rows, same_locals. run_stmt.
  all: cbn [wall_us].
  all: erewrite emitted_app by (cbn [trace]; repeat rewrite <- app_assoc; reflexivity).
  all: split; [reflexivity|].
  all: split; [lia|].
  all: split; [cbn [List.length app]; lia|].
  all: split; [reflexivity|].
  all: split; [tauto|].
  all: intros url bearer Hin; cbn [In app] in Hin.
  all: repeat match goal with
              | H : _ \/ _ |- _ => destruct H as [H | H]
              | H : False |- _ => destruct H
              | H : EvHttpGet _ _ = EvHttpGet _ _ |- _ => injection H as <- _
              | H : EvHttpPost _ _ = EvHttpGet _ _ |- _ => discriminate H
              end.
  all: cbn [to_utc from_utc]; apply Hwin.
Qed.

(** X17: a data request that is accepted at once costs one request and
    returns the rows with the credential it was given. *)
Theorem fetch_accepted_at_once tok cid csec env m status rows :
  net env (net_calls m) = NetResponse status (Some rows) ->
  is_error_status status = false ->
  fetch_latest_rows tok cid csec env m
  = (inr (rows, tok),
     count_net_call
       (add_event (EvHttpGet (request_url (clock env (clock_reads m))) tok)
                  (count_clock_read m))).
Proof.
  intros Hnet Hok. destruct m as [tk lt inf fas nc cr tr]. cbn [net_calls] in Hnet.
  unfold fetch_latest_rows, request_url. red_fetch. use_answers. reflexivity.
Qed.

(** X18: when the credential cannot be renewed after a 401 (the token
    request fails, or its answer has no [access_token]), that error is
    raised and the data request is not repeated. *)
Theorem fetch_refresh_failure_stops tok cid csec env m e :
  response_error (net env (net_calls m)) = Some (HTTPError (Some 401)) ->
  (response_error (net env (S (net_calls m))) = Some e \/
   exists status j,
     net env (S (net_calls m)) = NetResponse status (Some j) /\
     is_error_status status = false /\
     subscript j "access_token" = inl e) ->
  let run := fetch_latest_rows tok cid csec env m in
  fst run = inl e /\
  emitted m (snd run)
  = [EvHttpGet (request_url (clock env (clock_reads m))) tok; EvHttpPost cid csec].
Proof.
  intros H401 Htok. cbv zeta. rewrite (fetch_refresh _ _ _ _ _ H401).
  destruct m as [tk lt inf fas nc cr tr]. cbn [net_calls clock_reads] in *.
  destruct Htok as [He | (status & j & Hnet & Hok & Hsub)].
  - destruct (response_error_some _ _ He)
      as [Hnet | [(status & body & Hnet & Hrej & ->) | (status & Hnet & Hrej & ->)]];
      red_fetch; use_answers; (split; [reflexivity|]);
      apply emitted_app; cbn [trace]; now rewrite <- !app_assoc.
  - red_fetch. use_answers. split; [reflexivity|].
    apply emitted_app. cbn [trace]. now rewrite <- !app_assoc.
Qed.

(** ** The outcomes of the startup probe *)

Ltac after_startup_fetch Hfetch :=
  let Hl1 := fresh in let Hl2 := fresh in let Hl3 := fresh in let Hl4 := fresh in
  destruct (fetch_latest_rows_frame _ _ _ _ _ _ _ Hfetch)
    as ((Hl1 & Hl2 & Hl3 & Hl4) & _);
  match type of Hfetch with
  | fetch_latest_rows _ _ _ _ ?m = (_, ?m1) =>
      destruct m as [tk lt inf fas nc cr tr];
      destruct m1 as [tk1 lt1 inf1 fas1 nc1 cr1 tr1]
  end;
  cbn [token last_to in_failure first_after_start clock_reads trace] in *;
  subst;
  unfold startup_probe; red_stmt; rewrite Hfetch; red_stmt.

(** X19: a startup probe that finds a fresh latest row with a known label,
    and whose log line can be written (the row's [From] parses), gives the
    self-test pass, renders the colour, records the end of the row in
    [last_to] and writes the initial log line; it does not enter failure
    and gives no self-test fail. *)
Theorem startup_probe_healthy
        cid csec env m rows tok' m1 latest val v to t f_loc t_loc :
  fetch_latest_rows (token m) cid csec env m = (inr (rows, tok'), m1) ->
  truthy rows = true ->
  subscript_last rows = inr latest ->
  subscript latest "To" = inr to ->
  iso_utc_call to = inr t ->
  clock env (clock_reads m1) - instant t <= STALE_AFTER ->
  subscript latest "Value" = inr val ->
  value_map_item val = inr v ->
  window_text latest t = inr (f_loc, t_loc) ->
  let m' := exec (startup_probe cid csec) env m in
  emitted m1 m' = [EvSelfTestSuccess; EvLedOk (bucket v); EvLogInfo true f_loc t_loc v] /\
  last_to m' = Some t /\ in_failure m' = false /\ token m' = tok'.
Proof.
  intros Hfetch Hrows Hlast Hto Hiso Hfresh Hval Hv Hlog. cbv zeta.
  pose proof (iso_utc_call_aware _ _ Hiso) as Ht.
  after_startup_fetch Hfetch.
  follow Hrows. follow Hlast. follow Hto. follow Hiso.
  rewrite (dt_sub_now _ _ Ht). red_stmt.
  match goal with
  | |- context [?age >? STALE_AFTER] =>
      replace (age >? STALE_AFTER) with false
        by (symmetry; rewrite Z.gtb_ltb; apply Z.ltb_ge; exact Hfresh)
  end.
  red_stmt. follow Hval. rewrite (apply_state_known _ _ _ _ Hv). red_stmt.
  follow Hlog. rewrite ?Hval; red_stmt. rewrite ?Hv; red_stmt.
  repeat split. apply emitted_app. cbn [trace]. now rewrite <- !app_assoc.
Qed.

(** X20: a startup probe whose fetch raises, returns nothing, or returns a
    latest row older than the threshold gives the self-test fail and
    enters failure with its own reason; nothing is rendered and [last_to]
    is left as it was.  A stale row is reported as stale whatever its
    label is. *)
Theorem startup_probe_failures cid csec env m m1 :
  let m' := exec (startup_probe cid csec) env m in
  let failing r :=
    emitted m1 m' = [EvSelfTestFail; EvLogError r; EvLedErrorBlink; EvBuzzerError] /\
    in_failure m' = true /\ last_to m' = last_to m in
  (forall e,
      fetch_latest_rows (token m) cid csec env m = (inl e, m1) ->
      failing (StartupError e)) /\
  (forall rows tok',
      fetch_latest_rows (token m) cid csec env m = (inr (rows, tok'), m1) ->
      truthy rows = false ->
      failing StartupEmpty) /\
  (forall rows tok' latest to t,
      fetch_latest_rows (token m) cid csec env m = (inr (rows, tok'), m1) ->
      truthy rows = true ->
      subscript_last rows = inr latest ->
      subscript latest "To" = inr to ->
      iso_utc_call to = inr t ->
      clock env (clock_reads m1) - instant t > STALE_AFTER ->
      failing (StartupStale (clock env (clock_reads m1) - instant t))).
Proof.
  cbv zeta. split; [|split].
  - intros e Hfetch. after_startup_fetch Hfetch.
    repeat split. apply emitted_app. cbn [trace]. now rewrite <- !app_assoc.
  - intros rows tok' Hfetch Hrows. after_startup_fetch Hfetch. follow Hrows.
    repeat split. apply emitted_app. cbn [trace]. now rewrite <- !app_assoc.
  - intros rows tok' latest to t Hfetch Hrows Hlast Hto Hiso Hstale.
    pose proof (iso_utc_call_aware _ _ Hiso) as Ht.
    after_startup_fetch Hfetch.
    follow Hrows. follow Hlast. follow Hto. follow Hiso.
    rewrite (dt_sub_now _ _ Ht). red_stmt.
    match goal with
    | |- context [?age >? STALE_AFTER] =>
        replace (age >? STALE_AFTER) with true
          by (symmetry; apply Z.gtb_lt; lia)
    end.
    red_stmt. repeat split. apply emitted_app. cbn [trace]. now rewrite <- !app_assoc.
Qed.

(** X21: at the startup probe the state is rendered and recorded before
    the log line is built: when the row's [From] cannot be rendered for the
    log, the colour is already shown and [last_to] already set, and the
    probe still ends with the self-test fail and in failure. *)
Theorem startup_probe_fails_after_rendering
        cid csec env m rows tok' m1 latest val v to t e :
  fetch_latest_rows (token m) cid csec env m = (inr (rows, tok'), m1) ->
  truthy rows = true ->
  subscript_last rows = inr latest ->
  subscript latest "To" = inr to ->
  iso_utc_call to = inr t ->
  clock env (clock_reads m1) - instant t <= STALE_AFTER ->
  subscript latest "Value" = inr val ->
  value_map_item val = inr v ->
  window_text latest t = inl e ->
  let m' := exec (startup_probe cid csec) env m in
  emitted m1 m'
  = [EvSelfTestSuccess; EvLedOk (bucket v); EvSelfTestFail;
     EvLogError (StartupError e); EvLedErrorBlink; EvBuzzerError] /\
  last_to m' = Some t /\ in_failure m' = true.
Proof.
  intros Hfetch Hrows Hlast Hto Hiso Hfresh Hval Hv Hlog. cbv zeta.
  pose proof (iso_utc_call_aware _ _ Hiso) as Ht.
  after_startup_fetch Hfetch.
  follow Hrows. follow Hlast. follow Hto. follow Hiso.
  rewrite (dt_sub_now _ _ Ht). red_stmt.
  match goal with
  | |- context [?age >? STALE_AFTER] =>
      replace (age >? STALE_AFTER) with false
        by (symmetry; rewrite Z.gtb_ltb; apply Z.ltb_ge; exact Hfresh)
  end.
  red_stmt. follow Hval. rewrite (apply_state_known _ _ _ _ Hv). red_stmt.
  follow Hlog.
  repeat split. apply emitted_app. cbn [trace]. now rewrite <- !app_assoc.
Qed.

(** ** The properties at work on the scenarios *)

Lemma startup_probe_signals_witness :
  let m' := exec (startup_probe None None) env_healthy probe_start in
  count is_self_test_success (emitted probe_start m') = 1%nat /\
  count is_render (emitted probe_start m') = 1%nat /\
  exists t, last_to m' = Some t.
Proof.
  generalize (startup_probe_signals None None env_healthy probe_start).
  vm_compute. intros (_ & _ & _ & _ & H & _). exact (H eq_refl).
Defined.

Lemma fetch_error_turn_witness :
  emitted (fetched env_goes_down (running env_goes_down 0))
          (running env_goes_down 1)
  = [EvLogError (LoopError RequestException); EvLedErrorBlink; EvBuzzerError;
     EvSleep POLL_INTERVAL_MS].
Proof.
  generalize (fetch_error_turn None None env_goes_down (running env_goes_down 0)
                RequestException (fetched env_goes_down (running env_goes_down 0))).
  vm_compute. intros H. exact (proj1 (H eq_refl)).
Defined.

Lemma empty_response_turn_witness :
  emitted (fetched env_empty (running env_empty 0)) (running env_empty 1)
  = [EvLogError EmptyResponse; EvLedErrorBlink; EvBuzzerError; EvSleep POLL_INTERVAL_MS].
Proof.
  generalize (empty_response_turn None None env_empty (running env_empty 0)
                (JList []) (JStr "tok-1") (fetched env_empty (running env_empty 0))).
  vm_compute. intros H. exact (proj1 (H eq_refl eq_refl)).
Defined.

Lemma unknown_value_turn_witness :
  emitted (fetched env_unknown (running env_unknown 0)) (running env_unknown 1)
  = [EvLogError (UnknownValue (JStr "PURPLE")); EvLedErrorBlink; EvBuzzerError;
     EvSleep POLL_INTERVAL_MS].
Proof.
  generalize (unknown_value_turn None None env_unknown (running env_unknown 0)
                (JList [row "2025-09-08T13:23:00Z" "2025-09-08T13:24:00Z" "PURPLE"])
                (JStr "tok-1") (fetched env_unknown (running env_unknown 0))
                (row "2025-09-08T13:23:00Z" "2025-09-08T13:24:00Z" "PURPLE")
                (JStr "PURPLE")).
  vm_compute. intros H. exact (proj1 (H eq_refl eq_refl eq_refl eq_refl eq_refl)).
Defined.

Lemma unreadable_row_turn_witness :
  emitted (fetched env_missing_to (running env_missing_to 0)) (running env_missing_to 1)
  = [EvLogError (LoopError (KeyError (JStr "To"))); EvLedErrorBlink; EvBuzzerError;
     EvSleep POLL_INTERVAL_MS].
Proof.
  assert (Hbad :
            let rows := JList [JDict [("From", JStr "2025-09-08T13:23:00Z");
                                      ("Value", JStr "BLUE")]] in
            let e := KeyError (JStr "To") in
            subscript_last rows = inl e \/
            exists latest,
              subscript_last rows = inr latest /\
              (dict_get latest "Value" = inl e \/
               exists val,
                 dict_get latest "Value" = inr val /\
                 (value_map_contains val = inl e \/
                  (value_map_contains val = inr true /\
                   (subscript latest "To" = inl e \/
                    exists to, subscript latest "To" = inr to /\ iso_utc_call to = inl e))))).
  { right. eexists. split; [reflexivity|]. right. eexists. split; [reflexivity|].
    right. split; [reflexivity|]. left. reflexivity. }
  generalize (fun H1 H2 =>
                unreadable_row_turn None None env_missing_to (running env_missing_to 0)
                  (JList [JDict [("From", JStr "2025-09-08T13:23:00Z");
                                 ("Value", JStr "BLUE")]])
                  (JStr "tok-1") (fetched env_missing_to (running env_missing_to 0))
                  (KeyError (JStr "To")) H1 H2 Hbad).
  vm_compute. intros H. exact (proj1 (H eq_refl eq_refl)).
Defined.

Lemma apply_state_renders_known_labels_witness :
  apply_state (JStr "RED_NEG") env_down boot = (inr tt, add_event (EvLedOk "red") boot) /\
  apply_state JNull env_down boot = (inl (KeyError JNull), boot).
Proof.
  split.
  - exact (proj2 (proj1 (apply_state_renders_known_labels (JStr "RED_NEG") env_down boot)
                        (-3) eq_refl)).
  - exact (proj2 (proj2 (apply_state_renders_known_labels JNull env_down boot)
                        (KeyError JNull) eq_refl)).
Defined.

Lemma new_window_turn_witness :
  count is_hold_sleep
        (emitted (fetched env_healthy (running env_healthy 2)) (running env_healthy 3))
  = 55%nat /\
  last_to (running env_healthy 3) = Some (mkDatetime (at_time 13 25 0) timezone_utc) /\
  in_failure (running env_healthy 3) = false.
Proof.
  generalize (new_window_turn None None env_healthy (running env_healthy 2)
                (JList [window_1323; window_1324]) (JStr "tok-1")
                (fetched env_healthy (running env_healthy 2))
                window_1324 (JStr "GREEN_NEG") (-1) (JStr "2025-09-08T13:25:00Z")
                (mkDatetime (at_time 13 25 0) timezone_utc)).
  vm_compute. intros H.
  destruct (H eq_refl eq_refl eq_refl eq_refl eq_refl eq_refl eq_refl eq_refl)
    as (Hlast & _ & Hok & _).
  destruct (Hok (BerlinText 1757337840000000) (BerlinText 1757337900000000) eq_refl)
    as (_ & _ & Hfail).
  split; [reflexivity|]. split; [exact Hlast | exact Hfail].
Defined.

Lemma old_window_turn_witness :
  emitted (fetched env_flapping (running env_flapping 1)) (running env_flapping 2)
  = [EvSleep POLL_INTERVAL_MS] /\
  in_failure (running env_flapping 2) = false.
Proof.
  generalize (old_window_turn None None env_flapping (running env_flapping 1)
                (JList [window_1322]) (JStr "tok-1")
                (fetched env_flapping (running env_flapping 1))
                window_1322 (JStr "BLUE") (JStr "2025-09-08T13:23:00Z")
                (mkDatetime (at_time 13 23 0) timezone_utc)
                (mkDatetime (at_time 13 23 0) timezone_utc)).
  vm_compute. intros H.
  destruct (H eq_refl eq_refl eq_refl eq_refl eq_refl eq_refl eq_refl eq_refl eq_refl)
    as (Hev & _ & _ & Hfail & _).
  split; assumption.
Defined.

Lemma failure_cleared_only_by_fresh_known_row_witness :
  exists rows tok' m1 latest val to t,
    fetch_latest_rows (token (running env_flapping 1)) None None env_flapping
                      (running env_flapping 1) = (inr (rows, tok'), m1) /\
    truthy rows = true /\
    subscript_last rows = inr latest /\
    dict_get latest "Value" = inr val /\
    value_map_contains val = inr true /\
    subscript latest "To" = inr to /\
    iso_utc_call to = inr t /\
    clock env_flapping (clock_reads m1) - instant t <= STALE_AFTER.
Proof.
  apply (failure_cleared_only_by_fresh_known_row None None env_flapping
           (running env_flapping 1)).
  vm_compute. reflexivity.
Defined.

Lemma last_to_is_always_comparable_witness :
  tzinfo (mkDatetime (at_time 13 24 0) timezone_utc) = timezone_utc /\
  dt_gt (mkDatetime (at_time 13 25 0) timezone_utc)
        (mkDatetime (at_time 13 24 0) timezone_utc) = inr true.
Proof.
  assert (Hp : last_to (after_cycles None None env_healthy 1
                          (started (JStr "tok-1") None None env_healthy
                                   (exec (get_token None None) env_healthy boot)))
               = Some (mkDatetime (at_time 13 24 0) timezone_utc))
    by (vm_compute; reflexivity).
  destruct (last_to_is_always_comparable _ _ _ _ _ _ _ Hp) as (_ & Htz & _ & Hcmp).
  split; [exact Htz|].
  assert (Hiso : iso_utc_call (JStr "2025-09-08T13:25:00Z")
                 = inr (mkDatetime (at_time 13 25 0) timezone_utc))
    by (vm_compute; reflexivity).
  rewrite (Hcmp _ _ Hiso). vm_compute. reflexivity.
Defined.

Lemma first_after_start_stays_cleared_witness :
  first_after_start (after_cycles None None env_healthy 3 (running env_healthy 0)) = false.
Proof.
  apply (first_after_start_stays_cleared None None env_healthy (running env_healthy 0) 1 3).
  - lia.
  - vm_compute. reflexivity.
Defined.

Lemma get_token_posts_once_witness :
  fst (get_token None None env_refresh_fails boot) = inl (HTTPError (Some 401)).
Proof.
  destruct (get_token_posts_once None None env_refresh_fails boot)
    as (_ & _ & _ & _ & H & _).
  apply H. vm_compute. reflexivity.
Defined.

Lemma fetch_makes_bounded_requests_witness :
  to_utc (request_url (at_time 13 23 30)) <= at_time 13 23 30
  < to_utc (request_url (at_time 13 23 30)) + minutes 1.
Proof.
  destruct (fetch_makes_bounded_requests (JStr "tok-1") None None env_expired boot)
    as (_ & _ & _ & _ & _ & H).
  refine (proj1 (proj2 (H (request_url (at_time 13 23 30)) (JStr "tok-2") _))).
  vm_compute. auto.
Defined.

Lemma fetch_accepted_at_once_witness :
  fst (fetch_latest_rows (JStr "tok-1") None None env_healthy
                         (exec (get_token None None) env_healthy boot))
  = inr (JList [window_1322], JStr "tok-1").
Proof.
  rewrite (fetch_accepted_at_once (JStr "tok-1") None None env_healthy
             (exec (get_token None None) env_healthy boot) 200 (JList [window_1322])).
  - reflexivity.
  - vm_compute. reflexivity.
  - vm_compute. reflexivity.
Defined.

Lemma fetch_refresh_failure_stops_witness :
  let run := fetch_latest_rows (JStr "tok-1") None None env_refresh_fails boot in
  fst run = inl (HTTPError (Some 500)) /\
  emitted boot (snd run)
  = [EvHttpGet (request_url (at_time 13 23 30)) (JStr "tok-1"); EvHttpPost None None].
Proof.
  cbv zeta.
  refine (fetch_refresh_failure_stops (JStr "tok-1") None None env_refresh_fails boot
            (HTTPError (Some 500)) _ _).
  - vm_compute. reflexivity.
  - left. vm_compute. reflexivity.
Defined.

Lemma startup_probe_healthy_witness :
  let m' := exec (startup_probe None None) env_healthy probe_start in
  emitted (fetched env_healthy probe_start) m'
  = [EvSelfTestSuccess; EvLedOk "blue";
     EvLogInfo true (BerlinText (at_time 13 22 0)) (BerlinText (at_time 13 23 0)) 0] /\
  in_failure m' = false.
Proof.
  generalize (startup_probe_healthy None None env_healthy probe_start
                (JList [window_1322]) (JStr "tok-1") (fetched env_healthy probe_start)
                window_1322 (JStr "BLUE") 0 (JStr "2025-09-08T13:23:00Z")
                (mkDatetime (at_time 13 23 0) timezone_utc)
                (BerlinText (at_time 13 22 0)) (BerlinText (at_time 13 23 0))).
  vm_compute. intros H.
  destruct (H eq_refl eq_refl eq_refl eq_refl eq_refl ltac:(discriminate)
              eq_refl eq_refl eq_refl) as (Hev & _ & Hfail & _).
  split; assumption.
Defined.

Lemma startup_probe_failures_witness :
  let m' := exec (startup_probe None None) env_stale_start probe_start in
  emitted (fetched env_stale_start probe_start) m'
  = [EvSelfTestFail; EvLogError (StartupStale (minutes 7)); EvLedErrorBlink; EvBuzzerError] /\
  in_failure m' = true /\ last_to m' = None.
Proof.
  generalize (proj2 (proj2 (startup_probe_failures None None env_stale_start probe_start
                              (fetched env_stale_start probe_start)))
                    (JList [window_1322]) (JStr "tok-1") window_1322
                    (JStr "2025-09-08T13:23:00Z")
                    (mkDatetime (at_time 13 23 0) timezone_utc)).
  vm_compute. intros H.
  exact (H eq_refl eq_refl eq_refl eq_refl eq_refl eq_refl).
Defined.

Lemma startup_probe_fails_after_rendering_witness :
  let m' := exec (startup_probe None None) env_bad_from_start probe_start in
  last_to m' = Some (mkDatetime (at_time 13 23 0) timezone_utc) /\ in_failure m' = true.
Proof.
  generalize (startup_probe_fails_after_rendering
                None None env_bad_from_start probe_start
                (JList [row "n/a" "2025-09-08T13:23:00Z" "BLUE"]) (JStr "tok-1")
                (fetched env_bad_from_start probe_start)
                (row "n/a" "2025-09-08T13:23:00Z" "BLUE") (JStr "BLUE") 0
                (JStr "2025-09-08T13:23:00Z")
                (mkDatetime (at_time 13 23 0) timezone_utc) ValueError).
  vm_compute. intros H.
  exact (proj2 (H eq_refl eq_refl eq_refl eq_refl eq_refl ltac:(discriminate)
                  eq_refl eq_refl eq_refl)).
Defined.
